(** * The turn-taking machine of src/main.ts

    A shallow embedding of the dialogue manager [dmMachine] of
    [src/main.ts]: its context record, its guards, the per-state
    transition tables of the XState configuration, and the helper
    functions [sanitizeUtterance], [fetchChatCompletion] and
    [waitForKeypress].

    Strings are byte strings (the UTF-8 image of the JavaScript string).
    The only case mapping the program performs is [toLowerCase], applied
    to recognised utterances before a search for the ASCII word
    [nomatch], and to key names, which the terminal key decoder draws
    from ASCII.  No letter of [nomatch] is the lower case of a non-ASCII
    code point, and UTF-8 never encodes a non-ASCII code point with bytes
    below 128, so the ASCII case mapping on bytes decides the same
    searches as the full mapping on code points. *)

From Stdlib Require Import String Ascii List Bool Arith NArith Lia.
From Stdlib Require Import DecimalString Permutation.
Import ListNotations.
Open Scope string_scope.
Open Scope list_scope.
Open Scope bool_scope.

(** ** String primitives of the host language *)

Module Js.

Definition isUpper (c : ascii) : bool :=
  (65 <=? nat_of_ascii c)%nat && (nat_of_ascii c <=? 90)%nat.

Definition lowerChar (c : ascii) : ascii :=
  if isUpper c then ascii_of_nat (nat_of_ascii c + 32) else c.

(** [s.toLowerCase()] *)
Fixpoint toLowerCase (s : string) : string :=
  match s with
  | EmptyString => EmptyString
  | String c s' => String (lowerChar c) (toLowerCase s')
  end.

(** [s.startsWith(t)] *)
Fixpoint startsWith (s t : string) {struct t} : bool :=
  match t, s with
  | EmptyString, _ => true
  | String _ _, EmptyString => false
  | String b t', String a s' => Ascii.eqb a b && startsWith s' t'
  end.

(** [s.includes(t)]: [t] occurs in [s] at some position. *)
Fixpoint includes (s t : string) : bool :=
  startsWith s t
  || match s with
     | EmptyString => false
     | String _ s' => includes s' t
     end.

(** [xs.join(sep)] on an array of strings. *)
Definition join (sep : string) (xs : list string) : string :=
  String.concat sep xs.

(** [`${n}`] for a non-negative integer. *)
Definition numberToString (n : nat) : string :=
  NilZero.string_of_uint (Nat.to_uint n).

(** [xs[xs.length - 1]], [undefined] on the empty array. *)
Definition lastElement {A : Type} (xs : list A) : option A :=
  nth_error xs (List.length xs - 1).

(** [xs.includes(x)] on an array of strings. *)
Definition arrayIncludes (xs : list string) (x : string) : bool :=
  existsb (String.eqb x) xs.

End Js.

(** ** Types of main.ts *)

Inductive Role := assistant | user | system.

Record Message := { role : Role; content : string }.

Record DMContext := {
  lastResult : string;
  messages : list Message;
  isFirstMessage : bool;
  pendingManipulation : option string;
  keyPressed : option string;
  userSpeechBuffer : list string
}.

Definition roleName (r : Role) : string :=
  match r with
  | assistant => "assistant"
  | user => "user"
  | system => "system"
  end.

(** ** Helper functions of main.ts *)

(** [sanitizeUtterance] (main.ts:150). *)
Definition sanitizeUtterance (utterance : string) : string :=
  if Js.includes (Js.toLowerCase utterance) "nomatch" then "..."
  else utterance.

(** What the body of [fetchChatCompletion] can meet: [fetch] rejects;
    the response is not [ok]; the body is not JSON, or it has no
    [message], so that reading [data.message.content] throws; the
    [message] has no [content]; or the reply arrives. *)
Inductive FetchOutcome :=
| fetchRejects
| responseNotOk (status : nat)
| bodyMalformed
| contentMissing
| replyArrives (assistantMessage : string).

(** [fetchChatCompletion] (main.ts:90): everything thrown in the [try]
    block is caught and turned into a returned string, so the promise
    always resolves.  A [message] without [content] throws nothing: the
    function returns [data.message.content] as it is, [undefined]
    ([None]), which is not a string. *)
Definition fetchChatCompletion (o : FetchOutcome) : option string :=
  match o with
  | replyArrives assistantMessage => Some assistantMessage
  | contentMissing => None
  | fetchRejects | responseNotOk _ | bodyMalformed =>
      Some "Error while connecting to the language model. Probably ssh tunnel is not active."
  end.

(** The [key] argument of a keypress handler, as far as main.ts reads
    it.  It is declared [any]: the decoder leaves [name] undefined for
    keys it has no name for. *)
Record Key := { name : option string; ctrl : bool }.

Inductive KeypressOutcome :=
| resolved (token : string)
| exited
| thrown.

(** [waitForKeypress] (main.ts:124): the process exits on Ctrl+C,
    [toLowerCase] of an undefined name throws, and otherwise the promise
    resolves with the lowered key name. *)
Definition waitForKeypress (key : Key) : KeypressOutcome :=
  match name key with
  | Some keyName =>
      if ctrl key && String.eqb keyName "c" then exited
      else resolved (Js.toLowerCase keyName)
  | None => thrown
  end.

(** ** The machine [dmMachine] (main.ts:159) *)

Inductive State :=
| SetVoice
| AttendUser
| InitialSpeak
| ListeningOrWaitingForKey
| CheckIfKeypressOrContinueListening
| ProcessAccumulatedSpeech
| ProcessKeypress
| ListMessages
| AddManipulation
| SpeakManipulation
| ProcessingResponse
| Speaking
| End
| SessionExitingQuestionForTheResearcher
| LastQuestionWaitForYN
| ProcessYN
| ListMessagesBeforeFinal
| Done.

Definition State_eq_dec (a b : State) : {a = b} + {a <> b}.
Proof. decide equality. Defined.

(** The promise actors the states invoke. *)
Inductive Actor :=
| fhSetVoice
| fhAttend
| fhSpeak
| listenOrKeypress
| chatCompletion
| waitForKey.

Inductive ActorInput :=
| noInput
| speakInput (text : string) (isFirst : bool)
| chatInput (history : list Message).

(** What a transition does to the outside: console lines, actor starts
    and the exit of the process.  The second argument of
    [console.error(label, event)] is not modelled. *)
Inductive Effect :=
| consoleLog (line : string)
| consoleError (label : string)
| invokeActor (src : Actor) (input : ActorInput)
| processExit.

(** The value [listenOrKeypress] resolves with (main.ts:142). *)
Inductive RaceResult :=
| speech (data : string)
| keypress (data : string).

(** Events an invoked actor sends back: it settles with an output
    ([onDone]) or rejects ([onError]). *)
Inductive Event :=
| doneVoid (src : Actor)
| doneRace (result : RaceResult)
| doneChat (output : string)
| doneKey (output : string)
| errorOf (src : Actor).

(** *** Context updates ([assign]) *)

Definition setLastResult (v : string) (c : DMContext) : DMContext :=
  {| lastResult := v; messages := messages c;
     isFirstMessage := isFirstMessage c;
     pendingManipulation := pendingManipulation c;
     keyPressed := keyPressed c; userSpeechBuffer := userSpeechBuffer c |}.

Definition setMessages (v : list Message) (c : DMContext) : DMContext :=
  {| lastResult := lastResult c; messages := v;
     isFirstMessage := isFirstMessage c;
     pendingManipulation := pendingManipulation c;
     keyPressed := keyPressed c; userSpeechBuffer := userSpeechBuffer c |}.

Definition setIsFirstMessage (v : bool) (c : DMContext) : DMContext :=
  {| lastResult := lastResult c; messages := messages c;
     isFirstMessage := v;
     pendingManipulation := pendingManipulation c;
     keyPressed := keyPressed c; userSpeechBuffer := userSpeechBuffer c |}.

Definition setPendingManipulation (v : option string) (c : DMContext)
  : DMContext :=
  {| lastResult := lastResult c; messages := messages c;
     isFirstMessage := isFirstMessage c;
     pendingManipulation := v;
     keyPressed := keyPressed c; userSpeechBuffer := userSpeechBuffer c |}.

Definition setKeyPressed (v : option string) (c : DMContext) : DMContext :=
  {| lastResult := lastResult c; messages := messages c;
     isFirstMessage := isFirstMessage c;
     pendingManipulation := pendingManipulation c;
     keyPressed := v; userSpeechBuffer := userSpeechBuffer c |}.

Definition setUserSpeechBuffer (v : list string) (c : DMContext)
  : DMContext :=
  {| lastResult := lastResult c; messages := messages c;
     isFirstMessage := isFirstMessage c;
     pendingManipulation := pendingManipulation c;
     keyPressed := keyPressed c; userSpeechBuffer := v |}.

(** *** Guards (main.ts:191) *)

Definition keyIs (k : string) (context : DMContext) : bool :=
  match keyPressed context with
  | Some key => String.eqb key k
  | None => false
  end.

Definition isListMessagesKey : DMContext -> bool := keyIs "m".
Definition isDiscussKey : DMContext -> bool := keyIs "l".
Definition isQuitKey : DMContext -> bool := keyIs "0".

Definition manipulationKeys : list string :=
  ["1"; "2"; "3"; "4"; "q"; "w"; "e"; "r"; "a"; "s"; "d"; "f"].

Definition isManipulationKey (context : DMContext) : bool :=
  match keyPressed context with
  | Some key => Js.arrayIncludes manipulationKeys key
  | None => false
  end.

Definition isYesKey : DMContext -> bool := keyIs "y".
Definition isNoKey : DMContext -> bool := keyIs "n".

(** The inline guards of [CheckIfKeypressOrContinueListening] and
    [ProcessAccumulatedSpeech]. *)
Definition keyWasPressed (context : DMContext) : bool :=
  match keyPressed context with
  | Some _ => true
  | None => false
  end.

Definition hasAccumulatedSpeech (context : DMContext) : bool :=
  (0 <? List.length (userSpeechBuffer context))%nat.

Definition unguarded (_ : DMContext) : bool := true.

(** *** The manipulation table (main.ts:422) *)

Definition manipulations : list (string * string) :=
  [ ("1", "Hmm, the Doctor?");
    ("2", "Hmm, the pregnant lady?");
    ("3", "Hmm, the child?");
    ("4", "Hmm, the pilot?");
    ("q", "........ The Doctor?");
    ("w", "........ The pregnant lady?");
    ("e", "........ The child?");
    ("r", "........ The pilot?");
    ("a", "Hahaha, the Doctor?");
    ("s", "Hahaha, the pregnant lady?");
    ("d", "Hahaha, the child?");
    ("f", "Hahaha, the pilot?") ].

(** [manipulations[key]] as a phrase; [None] when the table has no such
    own entry, where the program would hold a value that is not a
    string. *)
Fixpoint lookupPhrase (table : list (string * string)) (key : string)
  : option string :=
  match table with
  | [] => None
  | (k, v) :: rest => if String.eqb key k then Some v else lookupPhrase rest key
  end.

(** [x || ''] on a nullable string. *)
Definition orEmpty (x : option string) : string :=
  match x with
  | Some s => s
  | None => ""
  end.

(** *** Console lines *)

Definition nl : string := String "010"%char "".
Definition dquote : string := String "034"%char "".

(** The lines of [xs.forEach((x, i) => console.log(`${i + 1}. ...`))]. *)
Definition numbered {A : Type} (render : A -> string) (xs : list A)
  : list Effect :=
  map (fun ix => consoleLog (Js.numberToString (fst ix) ++ ". "
                              ++ render (snd ix))%string)
      (combine (seq 1 (List.length xs)) xs).

Definition renderMessage (msg : Message) : string :=
  ("[" ++ roleName (role msg) ++ "]: " ++ content msg)%string.

(** The entry action shared by [ListMessages] and
    [ListMessagesBeforeFinal]: the transcript on the console. *)
Definition printHistory (ms : list Message) : list Effect :=
  [consoleLog (nl ++ "=== MESSAGE HISTORY ===")%string]
  ++ numbered renderMessage ms
  ++ [consoleLog ("======================" ++ nl)%string].

(** *** Transitions *)

Record Transition := {
  guard : DMContext -> bool;
  target : State;
  actions : DMContext -> DMContext * list Effect
}.

Definition noActions (c : DMContext) : DMContext * list Effect := (c, []).

Definition logLine (line : string) (c : DMContext)
  : DMContext * list Effect := (c, [consoleLog line]).

Definition logError (label : string) (c : DMContext)
  : DMContext * list Effect := (c, [consoleError label]).

Definition appendMessage (m : Message) (c : DMContext) : DMContext :=
  setMessages (messages c ++ [m]) c.

(** The [assign] of [ListeningOrWaitingForKey.onDone] (main.ts:292). *)
Definition recordRaceResult (result : RaceResult) (context : DMContext)
  : DMContext * list Effect :=
  match result with
  | speech rawUtterance =>
      let utterance := sanitizeUtterance rawUtterance in
      (setKeyPressed None
         (setUserSpeechBuffer (userSpeechBuffer context ++ [utterance])
            (setLastResult utterance context)),
       [consoleLog ("User said: " ++ rawUtterance ++ " -> sanitized to: "
                      ++ utterance)%string;
        consoleLog ("Buffer now contains: ["
                      ++ Js.join ", " (userSpeechBuffer context ++ [utterance])
                      ++ "]")%string])
  | keypress data =>
      (setKeyPressed (Some data) context,
       [consoleLog ("Key pressed: " ++ data)%string])
  end.

(** The [assign] of the first branch of [ProcessAccumulatedSpeech]
    (main.ts:351). *)
Definition commitSpeech (context : DMContext) : DMContext * list Effect :=
  let combinedInput := Js.join " " (userSpeechBuffer context) in
  (setUserSpeechBuffer []
     (appendMessage {| role := user; content := combinedInput |} context),
   [consoleLog ("Combined user input: " ++ dquote ++ combinedInput
                  ++ dquote)%string]).

Definition apology : string :=
  "I couldn't process that. Please say it again.".

Definition farewell : string := "Thank you for your participation.".

(** [onDone] and [onError] of the invoking states: the transitions a
    state has for an event, in source order.  [LastQuestionWaitForYN]
    has no [onError]; its actor [waitForKey] never rejects. *)
Definition on (s : State) (ev : Event) : list Transition :=
  match s, ev with
  | SetVoice, doneVoid fhSetVoice =>
      [ {| guard := unguarded; target := AttendUser;
           actions := logLine "Furhat voice set" |} ]
  | SetVoice, errorOf fhSetVoice =>
      [ {| guard := unguarded; target := InitialSpeak;
           actions := logError "Furhat voice error:" |} ]
  | AttendUser, doneVoid fhAttend =>
      [ {| guard := unguarded; target := InitialSpeak;
           actions := logLine "Furhat attending user" |} ]
  | AttendUser, errorOf fhAttend =>
      [ {| guard := unguarded; target := InitialSpeak;
           actions := logError "Furhat attend error:" |} ]
  | InitialSpeak, doneVoid fhSpeak =>
      [ {| guard := unguarded; target := ListeningOrWaitingForKey;
           actions := fun c =>
             (setIsFirstMessage false c,
              [consoleLog "Initial dilemma spoken, now listening for user or waiting for keypress"]) |} ]
  | InitialSpeak, errorOf fhSpeak =>
      [ {| guard := unguarded; target := ListeningOrWaitingForKey;
           actions := logError "Furhat speak error:" |} ]
  | ListeningOrWaitingForKey, doneRace result =>
      [ {| guard := unguarded; target := CheckIfKeypressOrContinueListening;
           actions := recordRaceResult result |} ]
  | ListeningOrWaitingForKey, errorOf listenOrKeypress =>
      [ {| guard := unguarded; target := ListeningOrWaitingForKey;
           actions := logError "Listen or keypress error:" |} ]
  | SpeakManipulation, doneVoid fhSpeak =>
      [ {| guard := unguarded; target := ListeningOrWaitingForKey;
           actions := fun c =>
             (setPendingManipulation None c,
              [consoleLog "Manipulation phrase spoken, now listening for user response or keypress"]) |} ]
  | SpeakManipulation, errorOf fhSpeak =>
      [ {| guard := unguarded; target := ListeningOrWaitingForKey;
           actions := logError "Furhat speak error:" |} ]
  | ProcessingResponse, doneChat output =>
      [ {| guard := unguarded; target := Speaking;
           actions := fun c =>
             (appendMessage {| role := assistant; content := output |} c,
              [consoleLog ("LLM responded: " ++ output)%string]) |} ]
  | ProcessingResponse, errorOf chatCompletion =>
      [ {| guard := unguarded; target := Speaking;
           actions := fun c =>
             (appendMessage {| role := assistant; content := apology |} c,
              []) |} ]
  | Speaking, doneVoid fhSpeak =>
      [ {| guard := unguarded; target := ListeningOrWaitingForKey;
           actions := logLine "Finished speaking LLM response, now listening for user or keypress" |} ]
  | Speaking, errorOf fhSpeak =>
      [ {| guard := unguarded; target := ListeningOrWaitingForKey;
           actions := logError "Furhat speak error:" |} ]
  | End, doneVoid fhSpeak =>
      [ {| guard := unguarded; target := LastQuestionWaitForYN;
           actions := fun c =>
             (appendMessage {| role := assistant; content := farewell |} c,
              []) |} ]
  | End, errorOf fhSpeak =>
      [ {| guard := unguarded; target := Done;
           actions := logError "Furhat speak error:" |} ]
  | LastQuestionWaitForYN, doneKey output =>
      [ {| guard := unguarded; target := ProcessYN;
           actions := fun c => (setKeyPressed (Some output) c, []) |} ]
  | _, _ => []
  end.

(** The eventless ([always]) transitions of a state, in source order. *)
Definition always (s : State) : list Transition :=
  match s with
  | CheckIfKeypressOrContinueListening =>
      [ {| guard := keyWasPressed; target := ProcessAccumulatedSpeech;
           actions := noActions |};
        {| guard := unguarded; target := ListeningOrWaitingForKey;
           actions := noActions |} ]
  | ProcessAccumulatedSpeech =>
      [ {| guard := hasAccumulatedSpeech; target := ProcessKeypress;
           actions := commitSpeech |};
        {| guard := unguarded; target := ProcessKeypress;
           actions := noActions |} ]
  | ProcessKeypress =>
      [ {| guard := isQuitKey; target := End; actions := noActions |};
        {| guard := isDiscussKey; target := ProcessingResponse;
           actions := noActions |};
        {| guard := isListMessagesKey; target := ListMessages;
           actions := noActions |};
        {| guard := isManipulationKey; target := AddManipulation;
           actions := noActions |};
        {| guard := unguarded; target := ListeningOrWaitingForKey;
           actions := logLine "Unknown key, please press L, 0, or manipulation keys (1-4, Q-R, A-F)" |} ]
  | ListMessages =>
      [ {| guard := unguarded; target := ListeningOrWaitingForKey;
           actions := noActions |} ]
  | AddManipulation =>
      [ {| guard := unguarded; target := SpeakManipulation;
           actions := noActions |} ]
  | SessionExitingQuestionForTheResearcher =>
      [ {| guard := unguarded; target := LastQuestionWaitForYN;
           actions := noActions |} ]
  | ProcessYN =>
      [ {| guard := isYesKey; target := ListMessagesBeforeFinal;
           actions := noActions |};
        {| guard := isNoKey; target := Done; actions := noActions |} ]
  | ListMessagesBeforeFinal =>
      [ {| guard := unguarded; target := Done; actions := noActions |} ]
  | _ => []
  end.

(** *** Entry actions and invocations *)

(** The [entry] action of a state.  [None]: the action would build a
    value outside the declared types ([AddManipulation] entered with a
    key that has no phrase). *)
Definition entry (s : State) (context : DMContext)
  : option (DMContext * list Effect) :=
  match s with
  | ListeningOrWaitingForKey =>
      Some (context,
            [consoleLog "Listening for user input OR waiting for keypress..."])
  | ProcessAccumulatedSpeech =>
      Some (context,
            consoleLog (nl ++ "=== Processing "
                          ++ Js.numberToString
                               (List.length (userSpeechBuffer context))
                          ++ " accumulated utterances ===")%string
            :: numbered (fun utterance => utterance)
                        (userSpeechBuffer context))
  | ListMessages | ListMessagesBeforeFinal =>
      Some (context, printHistory (messages context))
  | AddManipulation =>
      match lookupPhrase manipulations (orEmpty (keyPressed context)) with
      | Some phrase =>
          Some (setPendingManipulation (Some phrase)
                  (appendMessage {| role := assistant; content := phrase |}
                     context),
                [consoleLog ("Adding manipulation phrase: " ++ phrase)%string])
      | None => None
      end
  | ProcessingResponse =>
      Some (context, [consoleLog "Getting LLM response..."])
  | SessionExitingQuestionForTheResearcher =>
      Some (context,
            [consoleLog "DO YOU WANT TO PRINT THE CONVERSATION (Y/N)"])
  | LastQuestionWaitForYN =>
      Some (context,
            [consoleLog (nl ++ ">>> DO YOU WANT TO PRINT THE CONVERSATION (Y/N) <<<")%string])
  | Done =>
      Some (context, [consoleLog "Session ended. Exiting..."; processExit])
  | _ => Some (context, [])
  end.

(** The actor a state invokes. *)
Definition invokes (s : State) : option Actor :=
  match s with
  | SetVoice => Some fhSetVoice
  | AttendUser => Some fhAttend
  | InitialSpeak | SpeakManipulation | Speaking | End => Some fhSpeak
  | ListeningOrWaitingForKey => Some listenOrKeypress
  | ProcessingResponse => Some chatCompletion
  | LastQuestionWaitForYN => Some waitForKey
  | _ => None
  end.

(** The [input] of the invocation.  [None]: the input function reads
    [.content] of [undefined] (no last message). *)
Definition invokeInput (s : State) (context : DMContext)
  : option ActorInput :=
  match s with
  | InitialSpeak =>
      match Js.lastElement (messages context) with
      | Some lastMessage =>
          Some (speakInput (content lastMessage) (isFirstMessage context))
      | None => None
      end
  | SpeakManipulation =>
      Some (speakInput (orEmpty (pendingManipulation context)) false)
  | ProcessingResponse => Some (chatInput (messages context))
  | Speaking =>
      match Js.lastElement (messages context) with
      | Some lastMessage => Some (speakInput (content lastMessage) false)
      | None => None
      end
  | End => Some (speakInput farewell false)
  | _ => Some noInput
  end.

Definition invocation (s : State) (context : DMContext)
  : option (list Effect) :=
  match invokes s with
  | None => Some []
  | Some src =>
      match invokeInput s context with
      | Some input => Some [invokeActor src input]
      | None => None
      end
  end.

(** *** The initial context (main.ts:210) *)

Definition systemPrompt : string :=
  "You are a virtual person participating in a study on moral reasoning. Your responses are not full paragraphs. Be short and snappy. Do not give answers longer than two short sentences. You simulate structured dialogue that should be like a script of a movie to help a participant reflect on a hypothetical moral dilemma. Your role is purely conversational and for academic research purposes only. Your task is to discuss the hypothetical dilemma with the user. Guide them through reasoning about moral choices until they reach a decision. Background: the situation is completely hypothetical and no one is being harmed. The user will describe or has described a dilemma involving four fictional people (for example: Pilot, Teacher, Doctor, Prodigy). Review the chat history to understand the dilemma before responding. Interaction Rules: Treat everything as fictional and research-oriented. Stay neutral and non-judgmental, your job is to help the participant reason, not to persuade. Do not make moral evaluations. Do not add opinions not grounded in the user's reasoning. Keep the discussion focused on the dilemma. If the user expresses confusion or hesitation, gently encourage reflection using open-ended questions similar to a script of a movie. Dialogue Flow: confirm understanding of the dilemma in one sentence. Ask short, neutral questions to help the user explore their reasoning. After the user discusses all the characters, ask the user to come to a decision. Output Style: Keep replies concise and neutral. Use a calm and professional tone. Do not include real-world instructions or advice. Audience: participants in a moral reasoning research study. Ethical Constraints: never simulate or encourage real-world violence. Decline any non-hypothetical harmful requests. You may clarify that the discussion is fictional if needed.".

Definition introduction : string :=
  "Hello! We have a moral dilemma to talk about! Your task is to indicate which person you would choose to sacrifice in the following moral dilemma. Four people are in a hot air balloon. The balloon is losing height and about to crash into the mountains. Having thrown everything imaginable out of the balloon, including food, sandbags and other goods, their only hope is for one of them to jump to their certain death to give the balloon the extra height to clear the mountains and save the other three. The four people are: Dr Robert Lewis - a cancer research scientist, who believes he is about to discover a cure for most common types of cancer. He is a good friend of Susanne and William. Mrs. Susanne Harris - a primary school teacher. She is over the moon because she is 7 months pregnant with her second child. Mr. William Harris husband of Susanne, who he loves very much. He is the pilot of the balloon and the only one on board with balloon flying experience. Miss Heather Sloan - a 9-year-old music prodigy, considered by many to be a twenty-first century Mozart. Come to an agreement about who is to be allowed to stay in the balloon, and who is to jump. You must discuss all 4 balloon passengers and consider the reasons why they should or shouldnt remain in the balloon.".

Definition initialMessages : list Message :=
  [ {| role := system; content := systemPrompt |};
    {| role := assistant; content := introduction |} ].

Definition initialContext : DMContext :=
  {| lastResult := "";
     messages := initialMessages;
     isFirstMessage := true;
     pendingManipulation := None;
     keyPressed := None;
     userSpeechBuffer := [] |}.

(** *** Running the machine *)

Definition Config : Type := State * DMContext.
Definition Outcome : Type := option (Config * list Effect).

(** The first transition of a list whose guard holds. *)
Fixpoint select (ts : list Transition) (context : DMContext)
  : option Transition :=
  match ts with
  | [] => None
  | t :: rest => if guard t context then Some t else select rest context
  end.

(** Entering a state: its entry action, then the start of its actor. *)
Definition enter (s : State) (context : DMContext) : Outcome :=
  match entry s context with
  | None => None
  | Some (context', es) =>
      match invocation s context' with
      | None => None
      | Some starts => Some ((s, context'), es ++ starts)
      end
  end.

(** One transition taken from [src]: its actions, then the entry of the
    target.  The machine is built with [setup], where a transition
    re-enters its own source only when marked [reenter]; none is, so a
    transition whose target is its source does not leave the state:
    no entry action runs and the actor is not started again. *)
Definition take (src : State) (t : Transition) (context : DMContext)
  : Outcome :=
  let (context', es) := actions t context in
  if State_eq_dec src (target t) then Some ((src, context'), es)
  else
    match enter (target t) context' with
    | None => None
    | Some (cfg, es') => Some (cfg, es ++ es')
    end.

(** Eventless transitions are taken until none is enabled. *)
Fixpoint settle (fuel : nat) (cfg : Config) (done : list Effect)
  : Outcome :=
  match select (always (fst cfg)) (snd cfg) with
  | None => Some (cfg, done)
  | Some t =>
      match fuel with
      | 0 => None
      | S fuel' =>
          match take (fst cfg) t (snd cfg) with
          | None => None
          | Some (cfg', es) => settle fuel' cfg' (done ++ es)
          end
      end
  end.

(** No chain of eventless transitions visits a state twice, so the
    number of states bounds its length. *)
Definition settleFuel : nat := 18.

(** The machine receives an event in a state: the event is dropped when
    the state has no enabled transition for it. *)
Definition send (cfg : Config) (ev : Event) : Outcome :=
  match select (on (fst cfg) ev) (snd cfg) with
  | None => Some (cfg, [])
  | Some t =>
      match take (fst cfg) t (snd cfg) with
      | None => None
      | Some (cfg', es) => settle settleFuel cfg' es
      end
  end.

(** [createActor(dmMachine).start()]. *)
Definition start : Outcome :=
  match enter SetVoice initialContext with
  | None => None
  | Some (cfg, es) => settle settleFuel cfg es
  end.

(** A sequence of events, with the effects of the whole run. *)
Fixpoint run (cfg : Config) (evs : list Event) : Outcome :=
  match evs with
  | [] => Some (cfg, [])
  | ev :: rest =>
      match send cfg ev with
      | None => None
      | Some (cfg', es) =>
          match run cfg' rest with
          | None => None
          | Some (cfg'', es') => Some (cfg'', es ++ es')
          end
      end
  end.

(** ** The requests to the robot (main.ts:28) *)

(** The characters [encodeURIComponent] leaves as they are. *)
Definition isUnreserved (c : ascii) : bool :=
  let n := nat_of_ascii c in
  ((65 <=? n)%nat && (n <=? 90)%nat)
  || ((97 <=? n)%nat && (n <=? 122)%nat)
  || ((48 <=? n)%nat && (n <=? 57)%nat)
  || existsb (Ascii.eqb c)
       ["-"; "_"; "."; "!"; "~"; "*"; "'"; "("; ")"]%char.

Definition hexDigit (n : nat) : ascii :=
  if (n <? 10)%nat then ascii_of_nat (48 + n) else ascii_of_nat (55 + n).

(** [%XX] for a byte, in upper-case hexadecimal. *)
Definition percentEncode (c : ascii) : string :=
  String "%" (String (hexDigit (nat_of_ascii c / 16))
                (String (hexDigit (nat_of_ascii c mod 16)) "")).

(** [encodeURIComponent(s)] on the UTF-8 image of a well-formed string:
    every byte that is not unreserved is escaped. *)
Fixpoint encodeURIComponent (s : string) : string :=
  match s with
  | EmptyString => EmptyString
  | String c s' =>
      ((if isUnreserved c then String c "" else percentEncode c)
       ++ encodeURIComponent s')%string
  end.

Definition FURHATURI : string := "127.0.0.1:54321".

(** What [fetch] is called with by the three posting functions. *)
Record Request := {
  url : string;
  method : string;
  accept : string;
  body : string
}.

Definition post (target : string) : Request :=
  {| url := target; method := "POST"; accept := "application/json";
     body := "" |}.

(** [fhVoice] (main.ts:29). *)
Definition fhVoice (voice : string) : Request :=
  post ("http://" ++ FURHATURI ++ "/furhat/voice?name="
          ++ encodeURIComponent voice)%string.

(** [fhAttendUser] (main.ts:60). *)
Definition fhAttendUser : Request :=
  post ("http://" ++ FURHATURI ++ "/furhat/attend?user=CLOSEST")%string.

(** [fhSay] (main.ts:40): the blocking request, then the pause in
    milliseconds before the promise resolves. *)
Definition fhSayRequest (text : string) : Request :=
  post ("http://" ++ FURHATURI ++ "/furhat/say?text="
          ++ encodeURIComponent text ++ "&blocking=true")%string.

Definition fhSayDelay (isFirstMessage : bool) : N :=
  if isFirstMessage then 13000%N else 1000%N.

Definition fhSay (text : string) (isFirstMessage : bool) : Request * N :=
  (fhSayRequest text, fhSayDelay isFirstMessage).

(** What the [fhSpeak] actor does with its input (main.ts:172). *)
Definition fhSpeakCall (input : ActorInput) : option (Request * N) :=
  match input with
  | speakInput text isFirst => Some (fhSay text isFirst)
  | _ => None
  end.

(** ** Notions used in the statements *)

(** The case variants of a word: the strings that lower to it. *)
Definition caseVariantOf (word s : string) : Prop :=
  Js.toLowerCase s = word.

(** [t] occurs in [s] as a substring. *)
Definition occursIn (t s : string) : Prop :=
  exists pre post, s = (pre ++ t ++ post)%string.

(** An utterance carries the no-match marker when some case variant of
    [nomatch] occurs in it. *)
Definition containsNoMatchMarker (utterance : string) : Prop :=
  exists mid, caseVariantOf "nomatch" mid /\ occursIn mid utterance.

(** The context once the keypress [k] is recorded and
    [ProcessAccumulatedSpeech] is left: the composition of the two
    assigns of main.ts:292 and main.ts:351. *)
Definition afterKeypress (k : string) (c : DMContext) : DMContext :=
  let c1 := fst (recordRaceResult (keypress k) c) in
  if hasAccumulatedSpeech c1 then fst (commitSpeech c1) else c1.

(** The console lines between a keypress and the dispatch in
    [ProcessKeypress]. *)
Definition commitLog (k : string) (c : DMContext) : list Effect :=
  [consoleLog ("Key pressed: " ++ k)%string;
   consoleLog (nl ++ "=== Processing "
                 ++ Js.numberToString (List.length (userSpeechBuffer c))
                 ++ " accumulated utterances ===")%string]
  ++ numbered (fun utterance => utterance) (userSpeechBuffer c)
  ++ (if hasAccumulatedSpeech c
      then snd (commitSpeech (setKeyPressed (Some k) c)) else []).

(** A key that none of the four guards of [ProcessKeypress] accepts. *)
Definition unknownKey (context : DMContext) : bool :=
  negb (isQuitKey context) && negb (isDiscussKey context)
  && negb (isListMessagesKey context) && negb (isManipulationKey context).

(** The six guards on the pressed key (main.ts:191). *)
Definition keyGuards : list (DMContext -> bool) :=
  [isQuitKey; isDiscussKey; isListMessagesKey; isManipulationKey;
   isYesKey; isNoKey].

(** The guards of [ProcessKeypress] that hold in a context, the
    catch-all of the last branch written as a guard of its own. *)
Definition dispatchVariants : list (DMContext -> bool) :=
  [isQuitKey; isDiscussKey; isListMessagesKey; isManipulationKey;
   unknownKey].

(** The guarded branches of [ProcessKeypress] and its unguarded last
    branch. *)
Definition guardedBranches : list Transition :=
  firstn 4 (always ProcessKeypress).

Definition lastBranch : list Transition :=
  skipn 4 (always ProcessKeypress).

(** A key that none of the six guards accepts. *)
Definition otherKey (context : DMContext) : bool :=
  forallb (fun g => negb (g context)) keyGuards.

(** The variants of a keypress: the six guards and the catch-all. *)
Definition keyVariants : list (DMContext -> bool) :=
  keyGuards ++ [otherKey].

(** The state the dispatch of [ProcessKeypress] selects for the pressed
    key, and the state the confirmation of [ProcessYN] selects. *)
Definition dispatchTarget (context : DMContext) : option State :=
  option_map target (select (always ProcessKeypress) context).

Definition confirmTarget (context : DMContext) : option State :=
  option_map target (select (always ProcessYN) context).

(** The turns the commit of [ProcessAccumulatedSpeech] adds for a
    buffer. *)
Definition committedTurns (fragments : list string) : list Message :=
  match fragments with
  | [] => []
  | _ :: _ => [ {| role := user; content := Js.join " " fragments |} ]
  end.

(** The events of a start in which the voice is set, the user attended
    and the introduction spoken. *)
Definition boot : list Event :=
  [doneVoid fhSetVoice; doneVoid fhAttend; doneVoid fhSpeak].

(** The events of a sequence of utterances heard during the race. *)
Definition heard (utterances : list string) : list Event :=
  map (fun u => doneRace (speech u)) utterances.

Definition isChatCall (e : Effect) : bool :=
  match e with
  | invokeActor chatCompletion _ => true
  | _ => false
  end.

Definition isSpeakCall (e : Effect) : bool :=
  match e with
  | invokeActor fhSpeak _ => true
  | _ => false
  end.

(** How often a run starts the language-model actor. *)
Definition chatCalls (es : list Effect) : nat :=
  List.length (filter isChatCall es).

(** The first line of [printHistory]. *)
Definition transcriptHeader : Effect :=
  consoleLog (nl ++ "=== MESSAGE HISTORY ===")%string.

Definition printsTranscript (es : list Effect) : Prop :=
  In transcriptHeader es.

(** The event with which the language-model actor settles once
    [fetchChatCompletion] has met the outcome [o]: the actor is the
    promise of that function, which always resolves.  [None]: it
    resolves with [undefined], which the typed event does not carry. *)
Definition chatCompletionEvent (o : FetchOutcome) : option Event :=
  option_map doneChat (fetchChatCompletion o).

(** The call failed: the request was rejected, answered by an error
    status, or answered by a body without a message. *)
Definition callFailed (o : FetchOutcome) : bool :=
  match o with
  | fetchRejects | responseNotOk _ | bodyMalformed => true
  | contentMissing | replyArrives _ => false
  end.

(** The text [fetchChatCompletion] returns from its [catch]. *)
Definition connectionError : string :=
  "Error while connecting to the language model. Probably ssh tunnel is not active.".

(** The targets of the transitions a state has for an event. *)
Definition targets (s : State) (ev : Event) : list State :=
  map target (on s ev).

(** The states that deliver a text through [fhSpeak] during the
    conversation. *)
Definition deliveryStates : list State :=
  [InitialSpeak; SpeakManipulation; Speaking].

(** The actor an event comes from. *)
Definition sourceOf (ev : Event) : Actor :=
  match ev with
  | doneVoid src | errorOf src => src
  | doneRace _ => listenOrKeypress
  | doneChat _ => chatCompletion
  | doneKey _ => waitForKey
  end.

(** The state has a transition for the event: the event is not
    dropped. *)
Definition handled (cfg : Config) (ev : Event) : bool :=
  match select (on (fst cfg) ev) (snd cfg) with
  | Some _ => true
  | None => false
  end.

(** The two settlements of a delivery through [fhSpeak]. *)
Definition deliveryEvents : list Event := [doneVoid fhSpeak; errorOf fhSpeak].

(** Microsteps: a transition on an event out of a settled state, or an
    eventless transition. *)
Inductive microstep : Config -> Config -> Prop :=
| micro_on (s : State) (c : DMContext) (ev : Event) (t : Transition)
           (cfg : Config) (es : list Effect) :
    select (always s) c = None ->
    select (on s ev) c = Some t ->
    take s t c = Some (cfg, es) ->
    microstep (s, c) cfg
| micro_always (s : State) (c : DMContext) (t : Transition)
               (cfg : Config) (es : list Effect) :
    select (always s) c = Some t ->
    take s t c = Some (cfg, es) ->
    microstep (s, c) cfg.

(** The configurations the machine can be in, transient ones included. *)
Inductive reachable : Config -> Prop :=
| reach_initial : reachable (SetVoice, initialContext)
| reach_step (cfg cfg' : Config) :
    reachable cfg -> microstep cfg cfg' -> reachable cfg'.

(** A configuration at rest: no eventless transition is enabled. *)
Definition settled (cfg : Config) : Prop :=
  select (always (fst cfg)) (snd cfg) = None.

Definition isSystem (m : Message) : bool :=
  match role m with
  | system => true
  | _ => false
  end.

Definition systemTurn : Message :=
  {| role := system; content := systemPrompt |}.

(** An update that only appends turns, none of them a system turn. *)
Definition appendsTurns (c c' : DMContext) : Prop :=
  exists added,
    messages c' = messages c ++ added
    /\ Forall (fun m => isSystem m = false) added.

(** [ys] extends [xs]: only appended to. *)
Definition extends {A : Type} (xs ys : list A) : Prop :=
  exists added, ys = xs ++ added.

(** The characters an encoded component is made of. *)
Definition isUriSafe (c : ascii) : bool :=
  isUnreserved c || Ascii.eqb c "%"
  || existsb (Ascii.eqb c)
       ["0"; "1"; "2"; "3"; "4"; "5"; "6"; "7"; "8"; "9";
        "A"; "B"; "C"; "D"; "E"; "F"]%char.

(** The characters that separate the parts of a URL and its query. *)
Definition uriDelimiters : list ascii :=
  ["&"; "="; "?"; "#"; "/"; " "; "+"; ":"; ";"; ","; "@"; "$"]%char.

Definition hexValue (c : ascii) : nat :=
  let n := nat_of_ascii c in
  if (n <? 58)%nat then n - 48 else n - 55.

(** Reading an encoded component back. *)
Fixpoint percentDecode (s : string) : string :=
  match s with
  | EmptyString => EmptyString
  | String c rest =>
      if Ascii.eqb c "%" then
        match rest with
        | String h (String l rest') =>
            String (ascii_of_nat (hexValue h * 16 + hexValue l))
                   (percentDecode rest')
        | _ => String c (percentDecode rest)
        end
      else String c (percentDecode rest)
  end.

Definition isInvoke (e : Effect) : bool :=
  match e with
  | invokeActor _ _ => true
  | _ => false
  end.

(** The actors a step starts, in order. *)
Definition actorCalls (es : list Effect) : list Effect :=
  filter isInvoke es.

(** The event an actor without output settles with. *)
Definition settles (src : Actor) (ok : bool) : Event :=
  if ok then doneVoid src else errorOf src.

(** The events of a start, for each way the three actors of the setup
    can settle; the user is attended only when the voice was set. *)
Definition setupEvents (voiceOk attendOk speakOk : bool) : list Event :=
  settles fhSetVoice voiceOk
  :: (if voiceOk then [settles fhAttend attendOk] else [])
  ++ [settles fhSpeak speakOk].

(** The edges between the states in which the machine can rest: where
    one event can take it. *)
Definition follows (s s' : State) : bool :=
  match s, s' with
  | SetVoice, (SetVoice | AttendUser | InitialSpeak) => true
  | AttendUser, (AttendUser | InitialSpeak) => true
  | InitialSpeak, (InitialSpeak | ListeningOrWaitingForKey) => true
  | ListeningOrWaitingForKey,
    (ListeningOrWaitingForKey | End | ProcessingResponse
     | SpeakManipulation) => true
  | SpeakManipulation, (SpeakManipulation | ListeningOrWaitingForKey) => true
  | ProcessingResponse, (ProcessingResponse | Speaking) => true
  | Speaking, (Speaking | ListeningOrWaitingForKey) => true
  | End, (End | LastQuestionWaitForYN | Done) => true
  | LastQuestionWaitForYN, (LastQuestionWaitForYN | ProcessYN | Done) => true
  | CheckIfKeypressOrContinueListening, CheckIfKeypressOrContinueListening
  | ProcessAccumulatedSpeech, ProcessAccumulatedSpeech
  | ProcessKeypress, ProcessKeypress
  | ListMessages, ListMessages
  | AddManipulation, AddManipulation
  | SessionExitingQuestionForTheResearcher,
    SessionExitingQuestionForTheResearcher
  | ProcessYN, ProcessYN
  | ListMessagesBeforeFinal, ListMessagesBeforeFinal
  | Done, Done => true
  | _, _ => false
  end.

(** The step that starts the actor of a state: the state it comes from
    and the event that leads there. *)
Definition enteredBy (s' s : State) (ev : Event) : Prop :=
  match s' with
  | AttendUser => s = SetVoice /\ ev = doneVoid fhSetVoice
  | InitialSpeak =>
      (s = SetVoice /\ ev = errorOf fhSetVoice)
      \/ (s = AttendUser /\ (ev = doneVoid fhAttend \/ ev = errorOf fhAttend))
  | ListeningOrWaitingForKey =>
      (s = InitialSpeak \/ s = SpeakManipulation \/ s = Speaking)
      /\ (ev = doneVoid fhSpeak \/ ev = errorOf fhSpeak)
      \/ (s = ListeningOrWaitingForKey /\ exists r, ev = doneRace r)
  | SpeakManipulation =>
      s = ListeningOrWaitingForKey
      /\ exists k phrase,
          ev = doneRace (keypress k)
          /\ lookupPhrase manipulations k = Some phrase
  | ProcessingResponse =>
      s = ListeningOrWaitingForKey /\ ev = doneRace (keypress "l")
  | Speaking =>
      s = ProcessingResponse
      /\ ((exists reply, ev = doneChat reply) \/ ev = errorOf chatCompletion)
  | End => s = ListeningOrWaitingForKey /\ ev = doneRace (keypress "0")
  | LastQuestionWaitForYN => s = End /\ ev = doneVoid fhSpeak
  | _ => False
  end.

(** A string in which no case variant of [nomatch] occurs, as the test
    of [sanitizeUtterance] decides it. *)
Definition noMarker (s : string) : bool :=
  negb (Js.includes (Js.toLowerCase s) "nomatch").

(** No fragment of the buffer and no user turn of the history carries
    the marker. *)
Definition markerFree (c : DMContext) : Prop :=
  forallb noMarker (userSpeechBuffer c) = true
  /\ Forall (fun m => role m = user -> noMarker (content m) = true)
            (messages c).

(** The states of the listening race, where the buffer is filled. *)
Definition inRace (s : State) : bool :=
  match s with
  | ListeningOrWaitingForKey | CheckIfKeypressOrContinueListening
  | ProcessAccumulatedSpeech => true
  | _ => false
  end.

(** A delivery with the long pause of the first message. *)
Definition isLongPause (e : Effect) : bool :=
  match e with
  | invokeActor fhSpeak (speakInput _ true) => true
  | _ => false
  end.

Definition isExit (e : Effect) : bool :=
  match e with
  | processExit => true
  | _ => false
  end.

(** The two states of the setup that precede the introduction. *)
Definition inSetup (s : State) : bool :=
  match s with
  | SetVoice | AttendUser => true
  | _ => false
  end.

(** The phases of a session, in the order the machine goes through
    them: setup, introduction, conversation, farewell, confirmation,
    end. *)
Definition phase (s : State) : nat :=
  match s with
  | SetVoice => 0
  | AttendUser => 1
  | InitialSpeak => 2
  | ListeningOrWaitingForKey | CheckIfKeypressOrContinueListening
  | ProcessAccumulatedSpeech | ProcessKeypress | ListMessages
  | AddManipulation | SpeakManipulation | ProcessingResponse
  | Speaking => 3
  | End => 4
  | SessionExitingQuestionForTheResearcher | LastQuestionWaitForYN => 5
  | ProcessYN | ListMessagesBeforeFinal => 6
  | Done => 7
  end.

(** In [AddManipulation] and [SpeakManipulation]: the pending phrase is
    a phrase of the table and is the last turn of the history. *)
Definition hasPendingPhrase (c : DMContext) : Prop :=
  exists phrase,
    In phrase (map snd manipulations)
    /\ pendingManipulation c = Some phrase
    /\ Js.lastElement (messages c)
       = Some {| role := assistant; content := phrase |}.

(** * Properties *)

(** ** Strings *)

Section StringFacts.

Lemma startsWith_spec (s t : string) :
  Js.startsWith s t = true <-> exists post, s = (t ++ post)%string.
Proof.
  revert s; induction t as [|b t IH]; intros s; simpl.
  - split; [intros _; now exists s | reflexivity].
  - destruct s as [|a s].
    + split; [discriminate | intros [post H]; discriminate].
    + rewrite andb_true_iff, Ascii.eqb_eq, IH. split.
      * intros [-> [post ->]]. now exists post.
      * intros [post H]. injection H as -> ->. split; [reflexivity|now exists post].
Qed.

Lemma includes_spec (s t : string) :
  Js.includes s t = true <-> occursIn t s.
Proof.
  unfold occursIn. induction s as [|a s IH]; simpl.
  - rewrite orb_false_r, startsWith_spec. split.
    + intros [post H]. now exists EmptyString, post.
    + intros [pre [post H]]. destruct pre; [now exists post | discriminate].
  - rewrite orb_true_iff, IH, startsWith_spec. split.
    + intros [[post H] | [pre [post H]]].
      * now exists EmptyString, post.
      * exists (String a pre), post. simpl. now rewrite H.
    + intros [[|c pre] [post H]].
      * left. now exists post.
      * right. simpl in H. injection H as _ H. now exists pre, post.
Qed.

Lemma toLowerCase_app (a b : string) :
  Js.toLowerCase (a ++ b) = (Js.toLowerCase a ++ Js.toLowerCase b)%string.
Proof. induction a as [|c a IH]; simpl; [reflexivity | now rewrite IH]. Qed.

(** A split of the lowered string comes from a split of the string. *)
Lemma toLowerCase_split (u a b : string) :
  Js.toLowerCase u = (a ++ b)%string ->
  exists a' b', u = (a' ++ b')%string
                /\ Js.toLowerCase a' = a /\ Js.toLowerCase b' = b.
Proof.
  revert u; induction a as [|c a IH]; intros u H; simpl in H.
  - now exists EmptyString, u.
  - destruct u as [|d u]; simpl in H; [discriminate|].
    injection H as Hc H. destruct (IH _ H) as [a' [b' [-> [Ha Hb]]]].
    exists (String d a'), b'. simpl. now rewrite Hc, Ha, Hb.
Qed.

Lemma lowerChar_not_upper (c : ascii) : Js.isUpper (Js.lowerChar c) = false.
Proof.
  unfold Js.lowerChar. destruct (Js.isUpper c) eqn:E; [|exact E].
  unfold Js.isUpper in *. apply andb_true_iff in E as [E1 E2].
  apply Nat.leb_le in E1, E2.
  rewrite nat_ascii_embedding by lia.
  apply andb_false_iff. right. apply Nat.leb_gt. lia.
Qed.

Lemma toLowerCase_idempotent (s : string) :
  Js.toLowerCase (Js.toLowerCase s) = Js.toLowerCase s.
Proof.
  induction s as [|c s IH]; simpl; [reflexivity|]. rewrite IH. f_equal.
  unfold Js.lowerChar at 1. now rewrite lowerChar_not_upper.
Qed.

End StringFacts.

Lemma marker_test (utterance : string) :
  Js.includes (Js.toLowerCase utterance) "nomatch" = true
  <-> containsNoMatchMarker utterance.
Proof.
  rewrite includes_spec. unfold containsNoMatchMarker, occursIn, caseVariantOf.
  split.
  - intros [pre [post H]].
    apply toLowerCase_split in H as [pre' [rest [-> [Hpre H]]]].
    apply toLowerCase_split in H as [mid [post' [-> [Hmid Hpost]]]].
    exists mid. split; [exact Hmid | now exists pre', post'].
  - intros [mid [Hmid [pre [post ->]]]].
    exists (Js.toLowerCase pre), (Js.toLowerCase post).
    now rewrite !toLowerCase_app, Hmid.
Qed.

(** ** Steps of the machine *)

Ltac crank :=
  cbn -[numbered Js.numberToString Js.join append printHistory].

Ltac open_keypress c :=
  unfold send, afterKeypress, commitLog, hasAccumulatedSpeech; crank;
  let u := fresh "u" in
  let us := fresh "us" in
  let Hb := fresh "Hb" in
  destruct (userSpeechBuffer c) as [|u us] eqn:Hb; crank; rewrite ?Hb.

Ltac close_keypress :=
  first [reflexivity | rewrite <- !app_assoc; reflexivity].

Section MachineFacts.

Lemma lastElement_snoc {A : Type} (xs : list A) (x : A) :
  Js.lastElement (xs ++ [x]) = Some x.
Proof.
  unfold Js.lastElement. rewrite length_app. simpl.
  replace (List.length xs + 1 - 1) with (List.length xs) by lia.
  rewrite nth_error_app2 by lia. now rewrite Nat.sub_diag.
Qed.

Lemma numberToString_head (n : nat) :
  exists d rest, Js.numberToString n = String d rest
                 /\ (48 <=? nat_of_ascii d)%nat = true.
Proof.
  unfold Js.numberToString. destruct (Nat.to_uint n); simpl; eauto.
Qed.

Lemma numbered_no_header {A : Type} (render : A -> string) (xs : list A) :
  ~ In transcriptHeader (numbered render xs).
Proof.
  unfold numbered. intros H. apply in_map_iff in H as [[i x] [H _]].
  simpl in H. destruct (numberToString_head i) as [d [rest [E Hd]]].
  rewrite E in H. unfold transcriptHeader, nl in H. simpl in H.
  injection H as H _. subst d. discriminate.
Qed.

(** Speech during the race: the sanitized utterance joins the buffer
    and the race starts again. *)
Lemma send_speech (c : DMContext) (raw : string) :
  send (ListeningOrWaitingForKey, c) (doneRace (speech raw))
  = Some ((ListeningOrWaitingForKey,
           fst (recordRaceResult (speech raw) c)),
          snd (recordRaceResult (speech raw) c)
          ++ [consoleLog "Listening for user input OR waiting for keypress...";
              invokeActor listenOrKeypress noInput]).
Proof. reflexivity. Qed.

Lemma send_quit (c : DMContext) :
  send (ListeningOrWaitingForKey, c) (doneRace (keypress "0"))
  = Some ((End, afterKeypress "0" c),
          commitLog "0" c
          ++ [invokeActor fhSpeak (speakInput farewell false)]).
Proof. open_keypress c; close_keypress. Qed.

Lemma send_discuss (c : DMContext) :
  send (ListeningOrWaitingForKey, c) (doneRace (keypress "l"))
  = Some ((ProcessingResponse, afterKeypress "l" c),
          commitLog "l" c
          ++ [consoleLog "Getting LLM response...";
              invokeActor chatCompletion
                (chatInput (messages (afterKeypress "l" c)))]).
Proof.
  open_keypress c; close_keypress.
Qed.

Lemma send_list (c : DMContext) :
  send (ListeningOrWaitingForKey, c) (doneRace (keypress "m"))
  = Some ((ListeningOrWaitingForKey, afterKeypress "m" c),
          commitLog "m" c
          ++ printHistory (messages (afterKeypress "m" c))
          ++ [consoleLog "Listening for user input OR waiting for keypress...";
              invokeActor listenOrKeypress noInput]).
Proof.
  open_keypress c; close_keypress.
Qed.

Lemma send_manipulation (c : DMContext) (k phrase : string) :
  lookupPhrase manipulations k = Some phrase ->
  send (ListeningOrWaitingForKey, c) (doneRace (keypress k))
  = Some ((SpeakManipulation,
           setPendingManipulation (Some phrase)
             (appendMessage {| role := assistant; content := phrase |}
                (afterKeypress k c))),
          commitLog k c
          ++ [consoleLog ("Adding manipulation phrase: " ++ phrase)%string;
              invokeActor fhSpeak (speakInput phrase false)]).
Proof.
  intros H. cbn in H.
  repeat match type of H with
         | (if String.eqb ?x ?y then _ else _) = _ =>
             destruct (String.eqb_spec x y) as [->|?]
         end; try discriminate; injection H as <-;
    open_keypress c; close_keypress.
Qed.

Lemma send_unknown (c : DMContext) (k : string) :
  unknownKey (setKeyPressed (Some k) c) = true ->
  send (ListeningOrWaitingForKey, c) (doneRace (keypress k))
  = Some ((ListeningOrWaitingForKey, afterKeypress k c),
          commitLog k c
          ++ [consoleLog "Unknown key, please press L, 0, or manipulation keys (1-4, Q-R, A-F)";
              consoleLog "Listening for user input OR waiting for keypress...";
              invokeActor listenOrKeypress noInput]).
Proof.
  unfold unknownKey, isQuitKey, isDiscussKey, isListMessagesKey,
    isManipulationKey, keyIs.
  cbn [keyPressed setKeyPressed].
  intros H. repeat (apply andb_true_iff in H as [H ?]).
  apply negb_true_iff in H, H0, H1, H2. cbn in H0.
  open_keypress c;
    unfold isQuitKey, isDiscussKey, isListMessagesKey, isManipulationKey,
      keyIs; crank;
    rewrite H, H0, H1, H2; crank; close_keypress.
Qed.

(** Every key falls in one of the five classes of [ProcessKeypress]. *)
Lemma key_class (c : DMContext) (k : string) :
  k = "0" \/ k = "l" \/ k = "m"
  \/ (exists phrase, lookupPhrase manipulations k = Some phrase)
  \/ unknownKey (setKeyPressed (Some k) c) = true.
Proof.
  destruct (String.eqb_spec k "0") as [->|H0]; [now left|].
  destruct (String.eqb_spec k "l") as [->|Hl]; [now right; left|].
  destruct (String.eqb_spec k "m") as [->|Hm]; [now right; right; left|].
  right; right; right.
  destruct (lookupPhrase manipulations k) as [phrase|] eqn:E.
  - left. now exists phrase.
  - right. unfold unknownKey, isQuitKey, isDiscussKey, isListMessagesKey,
      isManipulationKey, keyIs.
    cbn [keyPressed setKeyPressed].
    apply String.eqb_neq in H0, Hl, Hm. rewrite H0, Hl, Hm.
    cbn in E |- *.
    repeat match type of E with
           | (if String.eqb ?x ?y then _ else _) = _ =>
               destruct (String.eqb x y); [discriminate|]
           end.
    reflexivity.
Qed.

End MachineFacts.

Section CommitFacts.

Lemma afterKeypress_messages (k : string) (c : DMContext) :
  messages (afterKeypress k c)
  = messages c ++ committedTurns (userSpeechBuffer c).
Proof.
  unfold afterKeypress, hasAccumulatedSpeech. cbn.
  destruct (userSpeechBuffer c); cbn; [now rewrite app_nil_r | reflexivity].
Qed.

Lemma afterKeypress_buffer (k : string) (c : DMContext) :
  userSpeechBuffer (afterKeypress k c) = [].
Proof.
  unfold afterKeypress, hasAccumulatedSpeech. cbn.
  destruct (userSpeechBuffer c) eqn:E; cbn; [exact E | reflexivity].
Qed.

Lemma afterKeypress_frame (k : string) (c : DMContext) :
  keyPressed (afterKeypress k c) = Some k
  /\ lastResult (afterKeypress k c) = lastResult c
  /\ isFirstMessage (afterKeypress k c) = isFirstMessage c
  /\ pendingManipulation (afterKeypress k c) = pendingManipulation c.
Proof.
  unfold afterKeypress, hasAccumulatedSpeech. cbn.
  destruct (userSpeechBuffer c); cbn; auto.
Qed.

(** What every keypress during the race leads to. *)
Lemma keypress_outcome (c : DMContext) (k : string) :
  exists s c' es rest,
    send (ListeningOrWaitingForKey, c) (doneRace (keypress k))
    = Some ((s, c'), es)
    /\ messages c' = messages (afterKeypress k c) ++ rest
    /\ Forall (fun m => role m = assistant) rest
    /\ userSpeechBuffer c' = []
    /\ keyPressed c' = Some k.
Proof.
  pose proof (afterKeypress_buffer k c) as Hb.
  pose proof (afterKeypress_frame k c) as [Hk _].
  destruct (key_class c k) as [->|[->|[->|[[phrase H]|H]]]].
  - rewrite send_quit. do 3 eexists. exists []. rewrite app_nil_r. auto.
  - rewrite send_discuss. do 3 eexists. exists []. rewrite app_nil_r. auto.
  - rewrite send_list. do 3 eexists. exists []. rewrite app_nil_r. auto.
  - rewrite (send_manipulation _ _ _ H). do 3 eexists.
    exists [ {| role := assistant; content := phrase |} ]. cbn. auto.
  - rewrite (send_unknown _ _ H). do 3 eexists. exists [].
    rewrite app_nil_r. auto.
Qed.

(** Utterances heard in a row join the buffer in arrival order. *)
Lemma speech_accumulates (utterances : list string) (c : DMContext) :
  exists c' es,
    run (ListeningOrWaitingForKey, c) (heard utterances)
    = Some ((ListeningOrWaitingForKey, c'), es)
    /\ userSpeechBuffer c'
       = userSpeechBuffer c ++ map sanitizeUtterance utterances
    /\ messages c' = messages c
    /\ pendingManipulation c' = pendingManipulation c
    /\ isFirstMessage c' = isFirstMessage c.
Proof.
  revert c. induction utterances as [|u us IH]; intros c.
  - exists c, []. cbn. rewrite app_nil_r. auto.
  - cbn [heard map run]. rewrite send_speech.
    destruct (IH (fst (recordRaceResult (speech u) c)))
      as [c' [es [Hrun [Hbuf [Hmsg [Hp Hf]]]]]].
    unfold heard in Hrun. rewrite Hrun. do 2 eexists.
    split; [reflexivity|]. rewrite Hbuf, Hmsg, Hp, Hf. cbn.
    rewrite <- app_assoc. auto.
Qed.

End CommitFacts.

(** ** C1: the commit of the speech buffer *)

(** C1.  Utterances heard during the race reach the buffer in arrival
    order.  The commit step out of [ProcessAccumulatedSpeech] always
    reaches [ProcessKeypress] with an empty buffer: from a non-empty
    buffer it appends exactly one user turn, the fragments joined with
    single spaces, and touches no other field; from an empty buffer it
    leaves the context as it is.  After any keypress the history is the
    old one, then the committed turn, then at most assistant turns. *)
Theorem commit_joins_fragments (context : DMContext)
        (utterances : list string) (k : string) :
  (exists c es,
      run (ListeningOrWaitingForKey, context) (heard utterances)
      = Some ((ListeningOrWaitingForKey, c), es)
      /\ userSpeechBuffer c
         = userSpeechBuffer context ++ map sanitizeUtterance utterances
      /\ messages c = messages context)
  /\ (exists t context' es,
         select (always ProcessAccumulatedSpeech) context = Some t
         /\ take ProcessAccumulatedSpeech t context
            = Some ((ProcessKeypress, context'), es)
         /\ userSpeechBuffer context' = []
         /\ match userSpeechBuffer context with
            | [] => context' = context
            | fragments =>
                messages context'
                = messages context
                  ++ [ {| role := user; content := Js.join " " fragments |} ]
                /\ lastResult context' = lastResult context
                /\ isFirstMessage context' = isFirstMessage context
                /\ pendingManipulation context' = pendingManipulation context
                /\ keyPressed context' = keyPressed context
            end)
  /\ (exists s context' es rest,
         send (ListeningOrWaitingForKey, context) (doneRace (keypress k))
         = Some ((s, context'), es)
         /\ messages context'
            = messages context
              ++ committedTurns (userSpeechBuffer context) ++ rest
         /\ Forall (fun m => role m = assistant) rest
         /\ userSpeechBuffer context' = []).
Proof.
  split; [|split].
  - destruct (speech_accumulates utterances context)
      as [c [es [H1 [H2 [H3 _]]]]].
    now exists c, es.
  - unfold take. cbn [always select guard]. unfold hasAccumulatedSpeech.
    destruct (userSpeechBuffer context) as [|u us] eqn:Hb; cbn -[Js.join].
    + do 3 eexists. repeat split; try reflexivity. exact Hb.
    + do 3 eexists. split; [reflexivity|]. split; [reflexivity|].
      cbn -[Js.join]. rewrite Hb. repeat split.
  - destruct (keypress_outcome context k)
      as [s [c' [es [rest [H1 [H2 [H3 [H4 _]]]]]]]].
    exists s, c', es, rest. rewrite afterKeypress_messages in H2.
    rewrite <- app_assoc in H2. auto.
Qed.

(** ** C7: the no-match marker *)

(** C7.  An utterance in which some case variant of [nomatch] occurs is
    replaced by the placeholder of three dots, every other utterance is
    kept as it is, and what the race appends to the buffer is the
    sanitized utterance.  Hearing [NOMATCH] and then [NoMatch foo] on an
    empty buffer and pressing any key commits the single user turn made
    of two placeholders joined by a space. *)
Theorem nomatch_replaced_before_buffering
        (utterance : string) (context : DMContext) (k : string) :
  ((containsNoMatchMarker utterance /\ sanitizeUtterance utterance = "...")
   \/ (~ containsNoMatchMarker utterance
       /\ sanitizeUtterance utterance = utterance))
  /\ (exists c es,
         send (ListeningOrWaitingForKey, context) (doneRace (speech utterance))
         = Some ((ListeningOrWaitingForKey, c), es)
         /\ userSpeechBuffer c
            = userSpeechBuffer context ++ [sanitizeUtterance utterance]
         /\ messages c = messages context)
  /\ (exists s c es rest,
         run (ListeningOrWaitingForKey, setUserSpeechBuffer [] context)
             (heard ["NOMATCH"; "NoMatch foo"] ++ [doneRace (keypress k)])
         = Some ((s, c), es)
         /\ messages c
            = messages context
              ++ [ {| role := user; content := "... ..." |} ] ++ rest
         /\ Forall (fun m => role m = assistant) rest
         /\ userSpeechBuffer c = []).
Proof.
  split; [|split].
  - unfold sanitizeUtterance.
    destruct (Js.includes (Js.toLowerCase utterance) "nomatch") eqn:E.
    + left. split; [now apply marker_test | reflexivity].
    + right. split; [|reflexivity].
      intros H. apply marker_test in H. congruence.
  - rewrite send_speech. do 2 eexists. split; [reflexivity|]. now cbn.
  - cbn [heard map app run]. rewrite !send_speech.
    set (c2 := fst (recordRaceResult (speech "NoMatch foo") _)).
    destruct (keypress_outcome c2 k)
      as [s [c' [es [rest [H1 [H2 [H3 [H4 _]]]]]]]].
    rewrite H1. exists s, c'. eexists. exists rest.
    split; [reflexivity|]. split; [|now split].
    rewrite H2, afterKeypress_messages. subst c2.
    now rewrite <- app_assoc.
Qed.

(** ** C2: an unknown key *)

(** C2, as stated, fails: after the start and the utterance [hello],
    the unknown key [x] commits the buffer before the dispatch, so both
    the history and the buffer differ from what they were before the
    keypress. *)
Lemma unknown_key_commits_buffer :
  exists c1 es1 c2 es2,
    run (SetVoice, initialContext) (boot ++ [doneRace (speech "hello")])
    = Some ((ListeningOrWaitingForKey, c1), es1)
    /\ unknownKey (setKeyPressed (Some "x") c1) = true
    /\ send (ListeningOrWaitingForKey, c1) (doneRace (keypress "x"))
       = Some ((ListeningOrWaitingForKey, c2), es2)
    /\ messages c2 <> messages c1
    /\ userSpeechBuffer c2 <> userSpeechBuffer c1.
Proof.
  do 4 eexists. split; [reflexivity|]. split; [reflexivity|].
  split; [reflexivity|]. split; intros H.
  - apply (f_equal (@List.length Message)) in H. discriminate H.
  - discriminate H.
Qed.

(** C2, amended.  For a key that none of the guards of [ProcessKeypress]
    accepts, the machine re-enters the listening race with the notice on
    the console.  The dispatch itself changes nothing; the keypress as a
    whole records the key and commits the buffer: the history gains the
    committed user turn exactly when the buffer was not empty, the
    buffer is empty afterwards, and no other field changes.  So history
    and buffer are as before the keypress when the buffer was empty. *)
Theorem unknown_key_reenters_listening (context : DMContext) (k : string) :
  unknownKey (setKeyPressed (Some k) context) = true ->
  exists c es,
    send (ListeningOrWaitingForKey, context) (doneRace (keypress k))
    = Some ((ListeningOrWaitingForKey, c), es)
    /\ In (consoleLog "Unknown key, please press L, 0, or manipulation keys (1-4, Q-R, A-F)") es
    /\ messages c
       = messages context ++ committedTurns (userSpeechBuffer context)
    /\ userSpeechBuffer c = []
    /\ keyPressed c = Some k
    /\ lastResult c = lastResult context
    /\ isFirstMessage c = isFirstMessage context
    /\ pendingManipulation c = pendingManipulation context
    /\ (userSpeechBuffer context = [] ->
        messages c = messages context
        /\ userSpeechBuffer c = userSpeechBuffer context)
    /\ (exists t,
           select (always ProcessKeypress) c = Some t
           /\ exists es', take ProcessKeypress t c
                          = Some ((ListeningOrWaitingForKey, c), es')).
Proof.
  intros H. rewrite (send_unknown _ _ H).
  pose proof (afterKeypress_frame k context) as [Hk [Hl [Hf Hp]]].
  pose proof (afterKeypress_messages k context) as Hm.
  pose proof (afterKeypress_buffer k context) as Hb.
  do 2 eexists. split; [reflexivity|].
  split; [apply in_or_app; right; now left|].
  repeat (split; [assumption|]). split.
  - intros E. rewrite Hm, Hb, E. cbn. now rewrite app_nil_r.
  - assert (Hu : unknownKey (afterKeypress k context) = true).
    { revert H. unfold unknownKey, isQuitKey, isDiscussKey,
        isListMessagesKey, isManipulationKey, keyIs.
      rewrite Hk. now cbn [keyPressed setKeyPressed]. }
    unfold unknownKey in Hu. repeat (apply andb_true_iff in Hu as [Hu ?]).
    apply negb_true_iff in Hu, H0, H1, H2.
    cbn [always select guard]. rewrite Hu, H2, H1, H0.
    eexists. split; [reflexivity|]. eexists. reflexivity.
Qed.

Lemma unknown_key_reenters_listening_witness :
  unknownKey (setKeyPressed (Some "x") initialContext) = true
  /\ exists c es,
    send (ListeningOrWaitingForKey, initialContext) (doneRace (keypress "x"))
    = Some ((ListeningOrWaitingForKey, c), es)
    /\ messages c = messages initialContext
    /\ userSpeechBuffer c = userSpeechBuffer initialContext.
Proof.
  split; [reflexivity|].
  destruct (unknown_key_reenters_listening initialContext "x" eq_refl)
    as [c [es [H1 [_ [_ [_ [_ [_ [_ [_ [H2 _]]]]]]]]]]].
  exists c, es. split; [exact H1 | exact (H2 eq_refl)].
Defined.

(** ** C3: a failed call of the language model *)

(** C3, on the code.  A failed call of the language model never gives
    the apology.  Whether [fetch] rejects, the response has an error
    status or the body has no message, [fetchChatCompletion] catches the
    failure and returns its connection-error text, so the actor settles
    through [onDone] and never through [onError].  For every history
    [ProcessingResponse] then appends one assistant turn with that
    text, which is not the apology, and [Speaking] starts its delivery.
    The apology is appended by the [onError] branch alone, which no
    outcome of the call reaches; a message without content makes the
    function return [undefined], again without rejecting.  In the run
    from the start with the discuss key, a failed call and the delivery,
    the machine is back in the listening race, the history ends with
    the connection-error turn and holds no apology, and the language
    model was called once. *)
Theorem chat_failure_speaks_connection_error (context : DMContext) :
  (forall o, callFailed o = true ->
             chatCompletionEvent o = Some (doneChat connectionError))
  /\ (forall o, chatCompletionEvent o <> Some (errorOf chatCompletion))
  /\ connectionError <> apology
  /\ (exists c es,
         send (ProcessingResponse, context) (doneChat connectionError)
         = Some ((Speaking, c), es)
         /\ messages c
            = messages context
              ++ [ {| role := assistant; content := connectionError |} ]
         /\ actorCalls es
            = [invokeActor fhSpeak (speakInput connectionError false)])
  /\ (exists c es,
         send (ProcessingResponse, context) (errorOf chatCompletion)
         = Some ((Speaking, c), es)
         /\ messages c
            = messages context
              ++ [ {| role := assistant; content := apology |} ]
         /\ actorCalls es = [invokeActor fhSpeak (speakInput apology false)])
  /\ chatCompletionEvent contentMissing = None
  /\ (exists c es,
         run (SetVoice, initialContext)
             (boot ++ [doneRace (keypress "l"); doneChat connectionError;
                       doneVoid fhSpeak])
         = Some ((ListeningOrWaitingForKey, c), es)
         /\ messages c
            = initialMessages
              ++ [ {| role := assistant; content := connectionError |} ]
         /\ ~ In {| role := assistant; content := apology |} (messages c)
         /\ actorCalls es
            = [invokeActor fhAttend noInput;
               invokeActor fhSpeak (speakInput introduction true);
               invokeActor listenOrKeypress noInput;
               invokeActor chatCompletion (chatInput initialMessages);
               invokeActor fhSpeak (speakInput connectionError false);
               invokeActor listenOrKeypress noInput]).
Proof.
  split; [now intros [] | ].
  split; [now intros [] | ].
  split; [discriminate|].
  split; [|split; [|split; [reflexivity|]]].
  - do 2 eexists. split.
    + unfold send. cbn -[connectionError append Js.lastElement].
      rewrite lastElement_snoc. reflexivity.
    + split; reflexivity.
  - do 2 eexists. split.
    + unfold send. cbn -[apology append Js.lastElement].
      rewrite lastElement_snoc. reflexivity.
    + split; reflexivity.
  - do 2 eexists. split; [reflexivity|]. split; [reflexivity|].
    split; [|reflexivity].
    intros [H|[H|[H|[]]]]; discriminate H.
Qed.

(** ** C4, C5: the end of the session *)

Section SessionEnd.

Lemma commitLog_no_header (k : string) (c : DMContext) :
  ~ printsTranscript (commitLog k c).
Proof.
  unfold printsTranscript, commitLog, transcriptHeader. intros H.
  apply in_app_or in H as [[H|[H|[]]]|H]; try discriminate H.
  apply in_app_or in H as [H|H].
  - exact (numbered_no_header _ _ H).
  - destruct (hasAccumulatedSpeech c); [|exact H].
    destruct H as [H|[]]; discriminate H.
Qed.

(** The lines before the dispatch are console lines only. *)
Lemma filter_commitLog (f : Effect -> bool) (k : string) (c : DMContext) :
  (forall line, f (consoleLog line) = false) ->
  filter f (commitLog k c) = [].
Proof.
  intros Hf. unfold commitLog. rewrite !filter_app. cbn [filter].
  rewrite !Hf.
  replace (filter f (numbered _ _)) with (@nil Effect).
  - destruct (hasAccumulatedSpeech c); cbn; now rewrite ?Hf.
  - symmetry. unfold numbered.
    induction (combine _ _) as [|ix l IH]; cbn; [reflexivity|].
    now rewrite Hf.
Qed.

(** The farewell was delivered: the turn is appended and the operator
    is asked. *)
Lemma send_farewell_done (c : DMContext) :
  send (End, c) (doneVoid fhSpeak)
  = Some ((LastQuestionWaitForYN,
           appendMessage {| role := assistant; content := farewell |} c),
          [consoleLog (nl ++ ">>> DO YOU WANT TO PRINT THE CONVERSATION (Y/N) <<<")%string;
           invokeActor waitForKey noInput]).
Proof. reflexivity. Qed.

(** The delivery of the farewell failed: the session ends at once. *)
Lemma send_farewell_error (c : DMContext) :
  send (End, c) (errorOf fhSpeak)
  = Some ((Done, c),
          [consoleError "Furhat speak error:";
           consoleLog "Session ended. Exiting..."; processExit]).
Proof. reflexivity. Qed.

Lemma send_confirm_no (c : DMContext) :
  send (LastQuestionWaitForYN, c) (doneKey "n")
  = Some ((Done, setKeyPressed (Some "n") c),
          [consoleLog "Session ended. Exiting..."; processExit]).
Proof. reflexivity. Qed.

Lemma send_confirm_yes (c : DMContext) :
  send (LastQuestionWaitForYN, c) (doneKey "y")
  = Some ((Done, setKeyPressed (Some "y") c),
          printHistory (messages c)
          ++ [consoleLog "Session ended. Exiting..."; processExit]).
Proof.
  unfold send. cbn -[printHistory]. now rewrite app_nil_r.
Qed.

(** The answer [y] prints the transcript before the process exits. *)
Lemma confirm_yes_prints (c : DMContext) :
  exists cfg es,
    send (LastQuestionWaitForYN, c) (doneKey "y") = Some (cfg, es)
    /\ fst cfg = Done /\ printsTranscript es /\ In processExit es.
Proof.
  rewrite send_confirm_yes. do 2 eexists. split; [reflexivity|].
  split; [reflexivity|]. split.
  - apply in_or_app. left. now left.
  - apply in_or_app. right. right. now left.
Qed.

(** Any other key: [ProcessYN] has no transition for it, and nothing
    is invoked there that could send a further event. *)
Lemma send_confirm_other (c : DMContext) (k : string) :
  k <> "y" -> k <> "n" ->
  send (LastQuestionWaitForYN, c) (doneKey k)
  = Some ((ProcessYN, setKeyPressed (Some k) c), [])
  /\ invokes ProcessYN = None
  /\ forall ev, send (ProcessYN, setKeyPressed (Some k) c) ev
                = Some ((ProcessYN, setKeyPressed (Some k) c), []).
Proof.
  intros Hy Hn. apply String.eqb_neq in Hy, Hn.
  unfold send, isYesKey, isNoKey, keyIs. cbn. rewrite Hy, Hn.
  repeat split.
Qed.

(** A state with no actor and no enabled eventless transition is
    never left. *)
Lemma run_stuck_in_ProcessYN (c : DMContext) (evs : list Event) :
  run (ProcessYN, c) evs = Some ((ProcessYN, c), []).
Proof.
  induction evs as [|ev evs IH]; [reflexivity|].
  cbn [run].
  change (send (ProcessYN, c) ev) with (Some ((ProcessYN, c), @nil Effect)).
  cbv iota beta. now rewrite IH.
Qed.

End SessionEnd.

(** C4, on the code.  After the start and the quit key the delivery of
    the farewell fails: the machine goes from [End] straight to [Done]
    and the process exits, with the initial history (no farewell turn
    was appended) and without the confirmation ever being asked (the
    actor [waitForKey] was never started).  When the same delivery
    succeeds, the farewell turn is appended, the confirmation is asked,
    and the key [n] reaches [Done] without a transcript.  The other
    states that deliver a text send a failed delivery where a
    successful one goes; [End] alone does not. *)
Theorem farewell_failure_skips_confirmation :
  exists c0 es0 es1,
    run (SetVoice, initialContext) (boot ++ [doneRace (keypress "0")])
    = Some ((End, c0), es0)
    /\ send (End, c0) (errorOf fhSpeak) = Some ((Done, c0), es1)
    /\ messages c0 = initialMessages
    /\ ~ In {| role := assistant; content := farewell |} (messages c0)
    /\ ~ In (invokeActor waitForKey noInput) (es0 ++ es1)
    /\ In processExit es1
    /\ (exists c1 es2 c2 es3,
           send (End, c0) (doneVoid fhSpeak)
           = Some ((LastQuestionWaitForYN, c1), es2)
           /\ messages c1
              = initialMessages
                ++ [ {| role := assistant; content := farewell |} ]
           /\ In (invokeActor waitForKey noInput) es2
           /\ send (LastQuestionWaitForYN, c1) (doneKey "n")
              = Some ((Done, c2), es3)
           /\ In processExit es3
           /\ ~ printsTranscript (es0 ++ es2 ++ es3))
    /\ Forall (fun s => targets s (errorOf fhSpeak)
                        = targets s (doneVoid fhSpeak))
              deliveryStates
    /\ targets End (doneVoid fhSpeak) = [LastQuestionWaitForYN]
    /\ targets End (errorOf fhSpeak) = [Done].
Proof.
  do 3 eexists. split; [reflexivity|]. split; [reflexivity|].
  split; [reflexivity|]. split; [|split; [|split; [|split; [|split]]]].
  - intros [H|[H|[]]]; discriminate H.
  - cbn. intros H.
    repeat (destruct H as [H|H]; [discriminate H|]). exact H.
  - right. right. now left.
  - do 4 eexists. split; [reflexivity|]. split; [reflexivity|].
    split; [right; now left|]. split; [reflexivity|].
    split; [right; now left|].
    unfold printsTranscript. cbn. intros H.
    repeat (destruct H as [H|H]; [discriminate H|]). exact H.
  - repeat constructor.
  - split; reflexivity.
Qed.

(** The quit key in every context: it leads to [End], which starts the
    delivery of the farewell and prints no transcript.  After a
    delivered farewell the turn is appended and the confirmation is
    asked, where the key [n] reaches [Done] without a transcript; after
    a failed delivery [End] is left for [Done] at once. *)
Lemma quit_key_paths (context : DMContext) :
  exists c0 es0,
    send (ListeningOrWaitingForKey, context) (doneRace (keypress "0"))
    = Some ((End, c0), es0)
    /\ messages c0
       = messages context ++ committedTurns (userSpeechBuffer context)
    /\ filter isSpeakCall es0
       = [invokeActor fhSpeak (speakInput farewell false)]
    /\ ~ printsTranscript es0
    /\ (exists c1 es1 c2 es2,
           send (End, c0) (doneVoid fhSpeak)
           = Some ((LastQuestionWaitForYN, c1), es1)
           /\ messages c1
              = messages c0 ++ [ {| role := assistant; content := farewell |} ]
           /\ send (LastQuestionWaitForYN, c1) (doneKey "n")
              = Some ((Done, c2), es2)
           /\ messages c2 = messages c1
           /\ In processExit es2
           /\ ~ printsTranscript (es1 ++ es2))
    /\ (exists es3,
           send (End, c0) (errorOf fhSpeak) = Some ((Done, c0), es3)
           /\ In processExit es3
           /\ ~ printsTranscript es3).
Proof.
  rewrite send_quit. do 2 eexists. split; [reflexivity|].
  split; [apply afterKeypress_messages|]. split; [|split; [|split]].
  - rewrite filter_app, filter_commitLog; reflexivity.
  - unfold printsTranscript. intros H. apply in_app_or in H as [H|[H|[]]].
    + exact (commitLog_no_header _ _ H).
    + discriminate H.
  - rewrite send_farewell_done. do 4 eexists. split; [reflexivity|].
    split; [reflexivity|]. rewrite send_confirm_no.
    split; [reflexivity|]. split; [reflexivity|].
    split; [right; now left|].
    unfold printsTranscript. cbn. intros H.
    repeat (destruct H as [H|H]; [discriminate H|]). exact H.
  - rewrite send_farewell_error. eexists. split; [reflexivity|].
    split; [right; right; now left|].
    unfold printsTranscript. cbn. intros H.
    repeat (destruct H as [H|H]; [discriminate H|]). exact H.
Qed.

(** C5, on the code.  After the start, the quit key and the farewell,
    the key [x] in the confirmation leaves the machine in [ProcessYN]:
    that state has no transition for the key and invokes no actor, the
    process has not exited, and whatever events follow, the machine
    stays there.  Only [y] and [n] lead to [Done] ([send_confirm_yes],
    [send_confirm_no]). *)
Theorem confirmation_other_key_never_ends :
  exists c es,
    run (SetVoice, initialContext)
        (boot ++ [doneRace (keypress "0"); doneVoid fhSpeak; doneKey "x"])
    = Some ((ProcessYN, c), es)
    /\ ~ In processExit es
    /\ invokes ProcessYN = None
    /\ forall evs, run (ProcessYN, c) evs = Some ((ProcessYN, c), []).
Proof.
  do 2 eexists. split; [reflexivity|].
  split; [|split; [reflexivity|]].
  - cbn. intros H.
    repeat (destruct H as [H|H]; [discriminate H|]). exact H.
  - apply run_stuck_in_ProcessYN.
Qed.

(** ** C6: the pending manipulation *)

Section Stimulus.

Variable c : DMContext.
Variables k phrase : string.
Hypothesis Hphrase : lookupPhrase manipulations k = Some phrase.

(** The traversal for a stimulus key: the phrase is appended as an
    assistant turn, kept as pending, and its delivery starts; only the
    success of the delivery clears the pending phrase. *)
Lemma stimulus_traversal :
  exists c1 es1 es2 es3,
    send (ListeningOrWaitingForKey, c) (doneRace (keypress k))
    = Some ((SpeakManipulation, c1), es1)
    /\ messages c1
       = messages c ++ committedTurns (userSpeechBuffer c)
         ++ [ {| role := assistant; content := phrase |} ]
    /\ pendingManipulation c1 = Some phrase
    /\ filter isSpeakCall es1
       = [invokeActor fhSpeak (speakInput phrase false)]
    /\ chatCalls es1 = 0
    /\ send (SpeakManipulation, c1) (doneVoid fhSpeak)
       = Some ((ListeningOrWaitingForKey, setPendingManipulation None c1),
               es2)
    /\ send (SpeakManipulation, c1) (errorOf fhSpeak)
       = Some ((ListeningOrWaitingForKey, c1), es3).
Proof.
  rewrite (send_manipulation _ _ _ Hphrase). do 4 eexists.
  split; [reflexivity|]. split.
  { cbn [messages setPendingManipulation appendMessage setMessages].
    now rewrite afterKeypress_messages, <- app_assoc. }
  split; [reflexivity|]. split.
  { rewrite filter_app, filter_commitLog; reflexivity. }
  split.
  { unfold chatCalls. rewrite filter_app, filter_commitLog; reflexivity. }
  split; reflexivity.
Qed.

End Stimulus.

(** C6, on the code.  After the start the stimulus key [1] sets the
    pending manipulation, and when its delivery fails the machine is
    back in the listening race with the phrase still pending: only the
    success branch of [SpeakManipulation] clears it. *)
Theorem stimulus_delivery_failure_keeps_pending :
  exists c es c' es',
    run (SetVoice, initialContext)
        (boot ++ [doneRace (keypress "1"); errorOf fhSpeak])
    = Some ((ListeningOrWaitingForKey, c), es)
    /\ pendingManipulation c = Some "Hmm, the Doctor?"
    /\ run (SetVoice, initialContext)
           (boot ++ [doneRace (keypress "1"); doneVoid fhSpeak])
       = Some ((ListeningOrWaitingForKey, c'), es')
    /\ pendingManipulation c' = None.
Proof.
  do 4 eexists. split; [reflexivity|]. split; [reflexivity|].
  split; reflexivity.
Qed.

(** ** C8: the classification of a keypress *)

Ltac key_split k :=
  repeat match goal with
         | |- context [String.eqb k ?s] =>
             destruct (String.eqb_spec k s) as [->|?]
         end.

Section Classification.

(** [select] returns the first enabled transition. *)
Lemma select_enabled (ts : list Transition) (c : DMContext) :
  select ts c = hd_error (filter (fun t => guard t c) ts).
Proof.
  induction ts as [|t ts IH]; cbn; [reflexivity|].
  now destruct (guard t c).
Qed.

Lemma filter_permutation {A : Type} (f : A -> bool) (l l' : list A) :
  Permutation l l' -> Permutation (filter f l) (filter f l').
Proof.
  induction 1 as [|x l l' _ IH|x y l|l l' l'' _ IH1 _ IH2]; cbn.
  - constructor.
  - destruct (f x); [now constructor | exact IH].
  - destruct (f x), (f y); try apply Permutation_refl. apply perm_swap.
  - now apply perm_trans with (filter f l').
Qed.

(** When at most one transition of a list is enabled, the order of
    the list does not matter. *)
Lemma select_permutation (ts ts' : list Transition) (c : DMContext) :
  List.length (filter (fun t => guard t c) ts) <= 1 ->
  Permutation ts' ts ->
  select ts' c = select ts c.
Proof.
  intros Hle Hperm. rewrite !select_enabled.
  assert (Hp : Permutation (filter (fun t => guard t c) ts)
                           (filter (fun t => guard t c) ts')).
  { apply Permutation_sym, filter_permutation; exact Hperm. }
  destruct (filter (fun t => guard t c) ts) as [|t [|t' rest]].
  - apply Permutation_nil in Hp. now rewrite Hp.
  - apply Permutation_length_1_inv in Hp. now rewrite Hp.
  - cbn in Hle. lia.
Qed.

Lemma select_app (ts us : list Transition) (c : DMContext) :
  select (ts ++ us) c
  = match select ts c with
    | Some t => Some t
    | None => select us c
    end.
Proof.
  induction ts as [|t ts IH]; cbn; [reflexivity|].
  now destruct (guard t c).
Qed.

Lemma key_guards_exclusive (c : DMContext) :
  List.length (filter (fun g => g c) keyGuards) <= 1.
Proof.
  unfold keyGuards, isQuitKey, isDiscussKey, isListMessagesKey,
    isManipulationKey, isYesKey, isNoKey, keyIs.
  cbn [filter]. destruct (keyPressed c) as [k|]; [|cbn; lia].
  cbn [Js.arrayIncludes manipulationKeys existsb].
  key_split k; cbn; lia.
Qed.

Lemma dispatch_variant_unique (c : DMContext) :
  List.length (filter (fun g => g c) dispatchVariants) = 1.
Proof.
  unfold dispatchVariants, unknownKey, isQuitKey, isDiscussKey,
    isListMessagesKey, isManipulationKey, keyIs.
  cbn [filter]. destruct (keyPressed c) as [k|]; [|reflexivity].
  cbn [Js.arrayIncludes manipulationKeys existsb].
  key_split k; reflexivity.
Qed.

Lemma guarded_branches_exclusive (c : DMContext) :
  List.length (filter (fun t => guard t c) guardedBranches) <= 1.
Proof.
  unfold guardedBranches. cbn [always firstn filter guard].
  unfold isQuitKey, isDiscussKey, isListMessagesKey, isManipulationKey,
    keyIs.
  destruct (keyPressed c) as [k|]; [|cbn; lia].
  cbn [Js.arrayIncludes manipulationKeys existsb].
  key_split k; cbn; lia.
Qed.

Lemma confirm_branches_exclusive (c : DMContext) :
  List.length (filter (fun t => guard t c) (always ProcessYN)) <= 1.
Proof.
  cbn [always filter guard]. unfold isYesKey, isNoKey, keyIs.
  destruct (keyPressed c) as [k|]; [|cbn; lia].
  key_split k; cbn; lia.
Qed.

Lemma manipulation_key_has_phrase (c : DMContext) :
  isManipulationKey c = true
  <-> exists phrase,
      lookupPhrase manipulations (orEmpty (keyPressed c)) = Some phrase.
Proof.
  unfold isManipulationKey. destruct (keyPressed c) as [k|]; cbn.
  - key_split k; cbn; split; intros H;
      solve [reflexivity | eauto | discriminate H
             | destruct H as [? H]; discriminate H].
  - split; [discriminate | intros [? H]; discriminate H].
Qed.

(** A guard on the key holds exactly for its key. *)
Lemma keyIs_spec (k : string) (c : DMContext) :
  keyIs k c = true <-> keyPressed c = Some k.
Proof.
  unfold keyIs. destruct (keyPressed c) as [key|].
  - destruct (String.eqb_spec key k) as [->|Hne]; split; intros H;
      try reflexivity; try discriminate H.
    injection H as ->. now elim Hne.
  - split; discriminate.
Qed.

Lemma arrayIncludes_In (xs : list string) (x : string) :
  Js.arrayIncludes xs x = true <-> In x xs.
Proof.
  unfold Js.arrayIncludes.
  induction xs as [|y xs IH]; cbn.
  - split; [discriminate | contradiction].
  - rewrite orb_true_iff, IH.
    destruct (String.eqb_spec x y); intuition congruence.
Qed.

Lemma manipulation_key_spec (c : DMContext) :
  isManipulationKey c = true
  <-> exists k, keyPressed c = Some k /\ In k manipulationKeys.
Proof.
  unfold isManipulationKey. destruct (keyPressed c) as [key|].
  - rewrite arrayIncludes_In. split.
    + intros H. now exists key.
    + intros [k [[= ->] H]]. exact H.
  - split; [discriminate | intros [k [H _]]; discriminate H].
Qed.

(** Exactly one of the seven variants holds. *)
Lemma other_key_variant (c : DMContext) :
  List.length (filter (fun g => g c) keyVariants) = 1.
Proof.
  unfold keyVariants, otherKey, keyGuards, isQuitKey, isDiscussKey,
    isListMessagesKey, isManipulationKey, isYesKey, isNoKey, keyIs.
  cbn [app filter forallb]. destruct (keyPressed c) as [k|]; [|reflexivity].
  cbn [Js.arrayIncludes manipulationKeys existsb].
  key_split k; reflexivity.
Qed.

Lemma dispatchTarget_guards (c : DMContext) :
  dispatchTarget c
  = Some (if isQuitKey c then End
          else if isDiscussKey c then ProcessingResponse
          else if isListMessagesKey c then ListMessages
          else if isManipulationKey c then AddManipulation
          else ListeningOrWaitingForKey).
Proof.
  unfold dispatchTarget. cbn [always select guard].
  destruct (isQuitKey c); [reflexivity|].
  destruct (isDiscussKey c); [reflexivity|].
  destruct (isListMessagesKey c); [reflexivity|].
  destruct (isManipulationKey c); reflexivity.
Qed.

Lemma confirmTarget_guards (c : DMContext) :
  confirmTarget c
  = if isYesKey c then Some ListMessagesBeforeFinal
    else if isNoKey c then Some Done else None.
Proof.
  unfold confirmTarget. cbn [always select guard].
  destruct (isYesKey c); [reflexivity|].
  destruct (isNoKey c); reflexivity.
Qed.

(** The target of the dispatch, key by key. *)
Lemma dispatch_by_key (c : DMContext) :
  (dispatchTarget c = Some End <-> keyPressed c = Some "0")
  /\ (dispatchTarget c = Some ProcessingResponse <-> keyPressed c = Some "l")
  /\ (dispatchTarget c = Some ListMessages <-> keyPressed c = Some "m")
  /\ (dispatchTarget c = Some AddManipulation
      <-> exists k, keyPressed c = Some k /\ In k manipulationKeys)
  /\ (dispatchTarget c = Some ListeningOrWaitingForKey
      <-> forall k, keyPressed c = Some k ->
                    ~ In k ("0" :: "l" :: "m" :: manipulationKeys)).
Proof.
  rewrite dispatchTarget_guards.
  rewrite <- manipulation_key_spec.
  assert (Hu : (forall k, keyPressed c = Some k ->
                          ~ In k ("0" :: "l" :: "m" :: manipulationKeys))
               <-> isQuitKey c = false /\ isDiscussKey c = false
                   /\ isListMessagesKey c = false
                   /\ isManipulationKey c = false).
  { unfold isQuitKey, isDiscussKey, isListMessagesKey, isManipulationKey,
      keyIs.
    destruct (keyPressed c) as [key|].
    - split.
      + intros H. specialize (H key eq_refl).
        repeat split.
        * destruct (String.eqb_spec key "0") as [->|]; [|reflexivity].
          elim H. now left.
        * destruct (String.eqb_spec key "l") as [->|]; [|reflexivity].
          elim H. right. now left.
        * destruct (String.eqb_spec key "m") as [->|]; [|reflexivity].
          elim H. right. right. now left.
        * destruct (Js.arrayIncludes manipulationKeys key) eqn:E;
            [|reflexivity].
          apply arrayIncludes_In in E. elim H. now do 3 right.
      + intros [H0 [Hl [Hm Hs]]] k [= <-] [<-|[<-|[<-|Hin]]];
          try discriminate.
        apply arrayIncludes_In in Hin. congruence.
    - split; [auto | intros _ k H; discriminate H]. }
  rewrite Hu.
  pose proof (key_guards_exclusive c) as Hex.
  unfold keyGuards in Hex. cbn [filter] in Hex.
  unfold isQuitKey, isDiscussKey, isListMessagesKey in *.
  rewrite <- !keyIs_spec.
  destruct (keyIs "0" c) eqn:Hq; destruct (keyIs "l" c) eqn:Hl;
    destruct (keyIs "m" c) eqn:Hm; destruct (isManipulationKey c) eqn:Hs;
    cbn in Hex; try lia;
    repeat split; try discriminate; try tauto; intros; intuition discriminate.
Qed.

(** The target of the confirmation, key by key. *)
Lemma confirm_by_key (c : DMContext) :
  (confirmTarget c = Some ListMessagesBeforeFinal <-> keyPressed c = Some "y")
  /\ (confirmTarget c = Some Done <-> keyPressed c = Some "n")
  /\ (confirmTarget c = None
      <-> keyPressed c <> Some "y" /\ keyPressed c <> Some "n").
Proof.
  rewrite confirmTarget_guards.
  pose proof (confirm_branches_exclusive c) as Hex.
  cbn [always filter guard] in Hex.
  unfold isYesKey, isNoKey in *. rewrite <- !keyIs_spec.
  destruct (keyIs "y" c) eqn:Hy; destruct (keyIs "n" c) eqn:Hn;
    cbn in Hex; try lia;
    repeat split; try discriminate; try tauto; intros; intuition discriminate.
Qed.

End Classification.

(** C8.  The classification of the pressed key is a total and
    exclusive partition, and it is the stated one.  Each guard holds
    for its key alone: quit for [0], discuss for [l], list for [m], yes
    for [y], no for [n], and the manipulation guard for the twelve keys
    [1 2 3 4 q w e r a s d f], each with its own phrase of the table.
    In every context at most one of the six guards holds, and exactly
    one of the seven variants (the six guards and the catch-all for
    every other key) applies.  [ProcessKeypress] always selects a
    transition: to [End] exactly for [0], to [ProcessingResponse]
    exactly for [l], to [ListMessages] exactly for [m], to
    [AddManipulation] exactly for the twelve keys, where the entry
    action injects the phrase of the key, and back to the listening race
    exactly for every other key, [y] and [n] included.  [ProcessYN]
    selects [ListMessagesBeforeFinal] exactly for [y], [Done] exactly
    for [n], and no transition for any other key.  The selection is the
    same for every order of the guarded branches of [ProcessKeypress]
    before its unguarded last branch, and for every order of the two
    branches of [ProcessYN]. *)
Theorem keypress_classification
        (context : DMContext) (guarded confirm : list Transition) :
  Permutation guarded guardedBranches ->
  Permutation confirm (always ProcessYN) ->
  List.length (filter (fun g => g context) keyGuards) <= 1
  /\ List.length (filter (fun g => g context) dispatchVariants) = 1
  /\ (exists t, select (always ProcessKeypress) context = Some t)
  /\ select (guarded ++ lastBranch) context
     = select (always ProcessKeypress) context
  /\ select confirm context = select (always ProcessYN) context
  /\ (isManipulationKey context = true
      <-> exists phrase,
          lookupPhrase manipulations (orEmpty (keyPressed context))
          = Some phrase)
  /\ map fst manipulations = manipulationKeys
  /\ NoDup manipulationKeys
  /\ List.length manipulationKeys = 12
  /\ NoDup (map snd manipulations)
  /\ List.length (filter (fun g => g context) keyVariants) = 1
  /\ (isQuitKey context = true <-> keyPressed context = Some "0")
  /\ (isDiscussKey context = true <-> keyPressed context = Some "l")
  /\ (isListMessagesKey context = true <-> keyPressed context = Some "m")
  /\ (isYesKey context = true <-> keyPressed context = Some "y")
  /\ (isNoKey context = true <-> keyPressed context = Some "n")
  /\ (isManipulationKey context = true
      <-> exists k,
          keyPressed context = Some k
          /\ In k ["1"; "2"; "3"; "4"; "q"; "w"; "e"; "r";
                   "a"; "s"; "d"; "f"])
  /\ (dispatchTarget context = Some End <-> keyPressed context = Some "0")
  /\ (dispatchTarget context = Some ProcessingResponse
      <-> keyPressed context = Some "l")
  /\ (dispatchTarget context = Some ListMessages
      <-> keyPressed context = Some "m")
  /\ (dispatchTarget context = Some AddManipulation
      <-> exists k,
          keyPressed context = Some k
          /\ In k ["1"; "2"; "3"; "4"; "q"; "w"; "e"; "r";
                   "a"; "s"; "d"; "f"])
  /\ (dispatchTarget context = Some ListeningOrWaitingForKey
      <-> forall k,
          keyPressed context = Some k ->
          ~ In k ["0"; "l"; "m"; "1"; "2"; "3"; "4"; "q"; "w"; "e"; "r";
                  "a"; "s"; "d"; "f"])
  /\ (confirmTarget context = Some ListMessagesBeforeFinal
      <-> keyPressed context = Some "y")
  /\ (confirmTarget context = Some Done <-> keyPressed context = Some "n")
  /\ (confirmTarget context = None
      <-> keyPressed context <> Some "y" /\ keyPressed context <> Some "n")
  /\ map (lookupPhrase manipulations)
         ["1"; "2"; "3"; "4"; "q"; "w"; "e"; "r"; "a"; "s"; "d"; "f"]
     = map Some
           ["Hmm, the Doctor?"; "Hmm, the pregnant lady?";
            "Hmm, the child?"; "Hmm, the pilot?";
            "........ The Doctor?"; "........ The pregnant lady?";
            "........ The child?"; "........ The pilot?";
            "Hahaha, the Doctor?"; "Hahaha, the pregnant lady?";
            "Hahaha, the child?"; "Hahaha, the pilot?"]
  /\ (forall k phrase,
         keyPressed context = Some k ->
         lookupPhrase manipulations k = Some phrase ->
         entry AddManipulation context
         = Some (setPendingManipulation (Some phrase)
                   (appendMessage {| role := assistant; content := phrase |}
                      context),
                 [consoleLog ("Adding manipulation phrase: " ++ phrase)%string])).
Proof.
  intros Hg Hc.
  split; [apply key_guards_exclusive|].
  split; [apply dispatch_variant_unique|].
  split.
  { change (always ProcessKeypress) with (guardedBranches ++ lastBranch).
    rewrite select_app.
    destruct (select guardedBranches context); [eauto | cbn; eauto]. }
  split.
  { change (always ProcessKeypress) with (guardedBranches ++ lastBranch).
    rewrite !select_app.
    now rewrite (select_permutation _ _ _
                   (guarded_branches_exclusive context) Hg). }
  split.
  { exact (select_permutation _ _ _ (confirm_branches_exclusive context) Hc). }
  split; [apply manipulation_key_has_phrase|].
  split; [reflexivity|]. split.
  { unfold manipulationKeys.
    repeat (constructor; [cbn; intuition discriminate|]). constructor. }
  split; [reflexivity|]. split.
  { cbn [map snd manipulations].
    repeat (constructor; [cbn; intuition discriminate|]). constructor. }
  split; [apply other_key_variant|].
  do 5 (split; [apply keyIs_spec|]).
  split; [apply manipulation_key_spec|].
  destruct (dispatch_by_key context) as [D0 [Dl [Dm [Ds Du]]]].
  destruct (confirm_by_key context) as [Cy [Cn Co]].
  repeat (split; [assumption|]).
  split; [reflexivity|].
  intros k phrase Hk Hphrase. cbn [entry]. rewrite Hk. cbn [orEmpty].
  now rewrite Hphrase.
Qed.

Lemma keypress_classification_witness :
  Permutation (rev guardedBranches) guardedBranches
  /\ Permutation (rev (always ProcessYN)) (always ProcessYN)
  /\ select (rev guardedBranches ++ lastBranch)
            (setKeyPressed (Some "l") initialContext)
     = select (always ProcessKeypress)
              (setKeyPressed (Some "l") initialContext)
  /\ dispatchTarget (setKeyPressed (Some "l") initialContext)
     = Some ProcessingResponse.
Proof.
  assert (H1 : Permutation (rev guardedBranches) guardedBranches)
    by apply Permutation_sym, Permutation_rev.
  assert (H2 : Permutation (rev (always ProcessYN)) (always ProcessYN))
    by apply Permutation_sym, Permutation_rev.
  split; [exact H1|]. split; [exact H2|].
  pose proof (keypress_classification
                (setKeyPressed (Some "l") initialContext) _ _ H1 H2) as H.
  split.
  - exact (proj1 (proj2 (proj2 (proj2 H)))).
  - apply H. reflexivity.
Defined.

(** ** C9: the history only grows *)

Section History.

Lemma appendsTurns_refl (c : DMContext) : appendsTurns c c.
Proof. exists []. now rewrite app_nil_r. Qed.

Lemma appendsTurns_same (c c' : DMContext) :
  messages c' = messages c -> appendsTurns c c'.
Proof. intros H. exists []. now rewrite app_nil_r. Qed.

Lemma appendsTurns_trans (c1 c2 c3 : DMContext) :
  appendsTurns c1 c2 -> appendsTurns c2 c3 -> appendsTurns c1 c3.
Proof.
  intros [a [Ha Fa]] [b [Hb Fb]]. exists (a ++ b).
  rewrite Hb, Ha, app_assoc. split; [reflexivity|].
  apply Forall_app. now split.
Qed.

Lemma select_In (ts : list Transition) (c : DMContext) (t : Transition) :
  select ts c = Some t -> In t ts.
Proof.
  induction ts as [|u ts IH]; cbn; [discriminate|].
  destruct (guard u c); [intros [= ->]; now left | right; auto].
Qed.

Ltac one_turn :=
  eexists [_]; split; [reflexivity | repeat constructor].

Lemma actions_append (ts : list Transition) (t : Transition)
      (c : DMContext) :
  In t ts ->
  (exists s ev, ts = on s ev) \/ (exists s, ts = always s) ->
  appendsTurns c (fst (actions t c)).
Proof.
  intros Hin [[s [ev ->]]|[s ->]].
  - destruct s; destruct ev as [[]|[]| | |[]]; cbn in Hin;
      repeat (destruct Hin as [<-|Hin]);
      try contradiction; cbn;
      try apply appendsTurns_refl; try one_turn;
      now apply appendsTurns_same.
  - destruct s; cbn in Hin; repeat (destruct Hin as [<-|Hin]);
      try contradiction; cbn -[Js.join];
      try apply appendsTurns_refl; try one_turn.
Qed.

Lemma entry_appends (s : State) (c c' : DMContext) (es : list Effect) :
  entry s c = Some (c', es) -> appendsTurns c c'.
Proof.
  destruct s; cbn -[lookupPhrase];
    try (intros [= <- _]; apply appendsTurns_refl).
  destruct (lookupPhrase _ _); [|discriminate].
  intros [= <- _]. cbn. one_turn.
Qed.

Lemma take_appends (s : State) (t : Transition) (c : DMContext)
      (cfg : Config) (es : list Effect) :
  appendsTurns c (fst (actions t c)) ->
  take s t c = Some (cfg, es) ->
  appendsTurns c (snd cfg).
Proof.
  unfold take, enter. intros Ha.
  destruct (actions t c) as [c1 e1]. cbn in Ha.
  destruct (State_eq_dec s (target t)).
  - intros [= <- _]. exact Ha.
  - destruct (entry (target t) c1) as [[c2 e2]|] eqn:E; [|discriminate].
    destruct (invocation (target t) c2); [|discriminate].
    intros [= <- _]. cbn.
    exact (appendsTurns_trans _ _ _ Ha (entry_appends _ _ _ _ E)).
Qed.

Lemma microstep_appends (cfg cfg' : Config) :
  microstep cfg cfg' -> appendsTurns (snd cfg) (snd cfg').
Proof.
  intros [s c ev t cfg1 es _ Hsel Htake | s c t cfg1 es Hsel Htake]; cbn.
  - apply (take_appends s t c cfg1 es); [|exact Htake].
    apply (actions_append (on s ev)); [now apply select_In with c|].
    left. now exists s, ev.
  - apply (take_appends s t c cfg1 es); [|exact Htake].
    apply (actions_append (always s)); [now apply select_In with c|].
    right. now exists s.
Qed.

Lemma reachable_appends (cfg : Config) :
  reachable cfg -> appendsTurns initialContext (snd cfg).
Proof.
  induction 1 as [|cfg cfg' _ IH Hstep].
  - apply appendsTurns_refl.
  - exact (appendsTurns_trans _ _ _ IH (microstep_appends _ _ Hstep)).
Qed.

Lemma filter_none {A : Type} (f : A -> bool) (l : list A) :
  Forall (fun x => f x = false) l -> filter f l = [].
Proof.
  induction 1 as [|x l Hx _ IH]; cbn; [reflexivity|]. now rewrite Hx.
Qed.

Lemma settle_appends (fuel : nat) (cfg cfg' : Config)
      (es es' : list Effect) :
  settle fuel cfg es = Some (cfg', es') ->
  appendsTurns (snd cfg) (snd cfg').
Proof.
  revert cfg es. induction fuel as [|fuel IH]; intros [s c] es; cbn.
  - destruct (select (always s) c); [discriminate|].
    intros [= <- _]. apply appendsTurns_refl.
  - destruct (select (always s) c) as [t|] eqn:Hsel.
    + destruct (take s t c) as [[cfg1 es1]|] eqn:Htake; [|discriminate].
      intros H. apply IH in H.
      refine (appendsTurns_trans _ _ _ _ H).
      exact (microstep_appends _ _ (micro_always _ _ _ _ _ Hsel Htake)).
    + intros [= <- _]. apply appendsTurns_refl.
Qed.

Lemma send_appends (cfg cfg' : Config) (ev : Event) (es : list Effect) :
  send cfg ev = Some (cfg', es) -> appendsTurns (snd cfg) (snd cfg').
Proof.
  destruct cfg as [s c]. unfold send. cbn [fst snd].
  destruct (select (on s ev) c) as [t|] eqn:Hsel.
  - destruct (take s t c) as [[cfg1 es1]|] eqn:Htake; [|discriminate].
    intros H. apply settle_appends in H.
    refine (appendsTurns_trans _ _ _ _ H).
    apply (take_appends s t c cfg1 es1); [|exact Htake].
    apply (actions_append (on s ev)); [now apply select_In with c|].
    left. now exists s, ev.
  - intros [= <- _]. apply appendsTurns_refl.
Qed.

(** What [settle], [send] and [run] compute is made of microsteps. *)
Lemma settle_reachable (fuel : nat) (cfg cfg' : Config)
      (es es' : list Effect) :
  reachable cfg ->
  settle fuel cfg es = Some (cfg', es') ->
  reachable cfg' /\ settled cfg'.
Proof.
  revert cfg es. induction fuel as [|fuel IH]; intros [s c] es Hr; cbn.
  - destruct (select (always s) c) eqn:Hsel; [discriminate|].
    intros [= <- _]. now split.
  - destruct (select (always s) c) as [t|] eqn:Hsel.
    + destruct (take s t c) as [[cfg1 es1]|] eqn:Htake; [|discriminate].
      apply IH. apply (reach_step (s, c)); [exact Hr|].
      exact (micro_always _ _ _ _ _ Hsel Htake).
    + intros [= <- _]. now split.
Qed.

Lemma send_reachable (cfg cfg' : Config) (ev : Event) (es : list Effect) :
  reachable cfg -> settled cfg ->
  send cfg ev = Some (cfg', es) ->
  reachable cfg' /\ settled cfg'.
Proof.
  destruct cfg as [s c]. unfold send. cbn [fst snd]. intros Hr Hs.
  destruct (select (on s ev) c) as [t|] eqn:Hsel.
  - destruct (take s t c) as [[cfg1 es1]|] eqn:Htake; [|discriminate].
    apply settle_reachable. apply (reach_step (s, c)); [exact Hr|].
    exact (micro_on _ _ _ _ _ _ Hs Hsel Htake).
  - intros [= <- _]. now split.
Qed.

Lemma run_reachable (evs : list Event) (cfg cfg' : Config)
      (es : list Effect) :
  reachable cfg -> settled cfg ->
  run cfg evs = Some (cfg', es) ->
  reachable cfg' /\ settled cfg'.
Proof.
  revert cfg es. induction evs as [|ev evs IH]; intros cfg es Hr Hs; cbn.
  - intros [= <- _]. now split.
  - destruct (send cfg ev) as [[cfg1 es1]|] eqn:Hsend; [|discriminate].
    destruct (run cfg1 evs) as [[cfg2 es2]|] eqn:Hrun; [|discriminate].
    intros [= <- _].
    destruct (send_reachable _ _ _ _ Hr Hs Hsend) as [Hr1 Hs1].
    exact (IH _ _ Hr1 Hs1 Hrun).
Qed.

Lemma start_reachable :
  start = Some ((SetVoice, initialContext),
                [invokeActor fhSetVoice noInput])
  /\ reachable (SetVoice, initialContext)
  /\ settled (SetVoice, initialContext).
Proof. repeat split. constructor. Qed.

Lemma history_shape (c : DMContext) :
  appendsTurns initialContext c ->
  hd_error (messages c) = Some systemTurn
  /\ filter isSystem (messages c) = [systemTurn].
Proof.
  intros [added [-> Hadded]]. split; [reflexivity|].
  rewrite filter_app, (filter_none _ _ Hadded). reflexivity.
Qed.

End History.

(** C9.  In every configuration reachable from the initial one,
    transient states included, the history begins with the system turn
    of the initial context, which is its only system turn, and every
    microstep and every event leaves a history that extends the one
    before it and has the same shape. *)
Theorem history_only_grows (cfg : Config) :
  reachable cfg ->
  hd_error (messages (snd cfg)) = Some systemTurn
  /\ filter isSystem (messages (snd cfg)) = [systemTurn]
  /\ (forall cfg',
         microstep cfg cfg' ->
         extends (messages (snd cfg)) (messages (snd cfg'))
         /\ hd_error (messages (snd cfg')) = Some systemTurn
         /\ filter isSystem (messages (snd cfg')) = [systemTurn])
  /\ (forall ev cfg' es,
         send cfg ev = Some (cfg', es) ->
         extends (messages (snd cfg)) (messages (snd cfg'))
         /\ hd_error (messages (snd cfg')) = Some systemTurn
         /\ filter isSystem (messages (snd cfg')) = [systemTurn]).
Proof.
  intros Hr. pose proof (reachable_appends _ Hr) as H0.
  destruct (history_shape _ H0) as [Hh0 Hf0].
  split; [exact Hh0|]. split; [exact Hf0|]. split.
  - intros cfg' Hstep. pose proof (microstep_appends _ _ Hstep) as H1.
    destruct (history_shape _ (appendsTurns_trans _ _ _ H0 H1)) as [Hh Hf].
    split; [|now split]. destruct H1 as [added [E _]]. now exists added.
  - intros ev cfg' es Hsend. apply send_appends in Hsend.
    destruct (history_shape _ (appendsTurns_trans _ _ _ H0 Hsend)) as [Hh Hf].
    split; [|now split]. destruct Hsend as [added [E _]]. now exists added.
Qed.

Lemma history_only_grows_witness :
  reachable (SetVoice, initialContext)
  /\ hd_error (messages initialContext) = Some systemTurn
  /\ extends (messages initialContext) (messages initialContext).
Proof.
  assert (Hr : reachable (SetVoice, initialContext)) by constructor.
  destruct (history_only_grows _ Hr) as [Hh [_ [_ Hsend]]].
  split; [exact Hr|]. split; [exact Hh|].
  exact (proj1 (Hsend (doneVoid fhSetVoice) (AttendUser, initialContext)
                      [consoleLog "Furhat voice set";
                       invokeActor fhAttend noInput] eq_refl)).
Defined.

(** ** C10: the key token *)

Section KeyToken.

Lemma toLowerCase_no_upper (s : string) (ch : ascii) :
  In ch (list_ascii_of_string (Js.toLowerCase s)) -> Js.isUpper ch = false.
Proof.
  induction s as [|c s IH]; cbn; [contradiction|].
  intros [<-|H]; [apply lowerChar_not_upper | exact (IH H)].
Qed.

Lemma waitForKeypress_resolved (key : Key) (token : string) :
  waitForKeypress key = resolved token ->
  exists keyName,
    name key = Some keyName /\ token = Js.toLowerCase keyName.
Proof.
  unfold waitForKeypress. destruct (name key) as [keyName|]; [|discriminate].
  destruct (ctrl key && String.eqb keyName "c"); [discriminate|].
  intros [= <-]. now exists keyName.
Qed.

End KeyToken.

(** C10.  A token that [waitForKeypress] resolves with is the lowered
    name of the key: it contains no upper-case letter and lowering it
    again changes nothing.  Two keys whose names differ only in letter
    case resolve with the same token, so the machine takes the same step
    for them, in the listening race and in the confirmation. *)
Theorem key_token_is_lowered
        (key key' : Key) (token token' : string) (cfg : Config) :
  waitForKeypress key = resolved token ->
  waitForKeypress key' = resolved token' ->
  option_map Js.toLowerCase (name key) = option_map Js.toLowerCase (name key') ->
  Some token = option_map Js.toLowerCase (name key)
  /\ (forall ch, In ch (list_ascii_of_string token) -> Js.isUpper ch = false)
  /\ Js.toLowerCase token = token
  /\ token = token'
  /\ send cfg (doneRace (keypress token)) = send cfg (doneRace (keypress token'))
  /\ send cfg (doneKey token) = send cfg (doneKey token').
Proof.
  intros H H' Hname.
  apply waitForKeypress_resolved in H as [n [Hn ->]].
  apply waitForKeypress_resolved in H' as [n' [Hn' ->]].
  rewrite Hn, Hn' in Hname. cbn in Hname. injection Hname as Hname.
  rewrite Hn. cbn. split; [reflexivity|].
  split; [apply toLowerCase_no_upper|].
  split; [apply toLowerCase_idempotent|].
  rewrite Hname. repeat split.
Qed.

Lemma key_token_is_lowered_witness :
  waitForKeypress {| name := Some "L"; ctrl := false |} = resolved "l"
  /\ waitForKeypress {| name := Some "l"; ctrl := false |} = resolved "l"
  /\ option_map Js.toLowerCase (Some "L") = option_map Js.toLowerCase (Some "l")
  /\ send (ListeningOrWaitingForKey, initialContext) (doneRace (keypress "l"))
     = send (ListeningOrWaitingForKey, initialContext)
            (doneRace (keypress "l")).
Proof.
  split; [reflexivity|]. split; [reflexivity|]. split; [reflexivity|].
  exact (proj1 (proj2 (proj2 (proj2 (proj2
           (key_token_is_lowered
              {| name := Some "L"; ctrl := false |}
              {| name := Some "l"; ctrl := false |}
              "l" "l" (ListeningOrWaitingForKey, initialContext)
              eq_refl eq_refl eq_refl)))))).
Defined.

(** ** The machine never leaves the model *)

Section Totality.

Lemma lastElement_some {A : Type} (xs : list A) :
  xs <> [] -> exists x, Js.lastElement xs = Some x.
Proof.
  intros H. destruct (exists_last H) as [ys [y ->]].
  exists y. apply lastElement_snoc.
Qed.

(** In a reachable configuration at rest every event has an outcome:
    the fuel of [settle] suffices, [AddManipulation] is only entered
    with a key of the phrase table, and a state that speaks the last
    message finds one. *)
Lemma machine_total (cfg : Config) (ev : Event) :
  reachable cfg -> settled cfg ->
  exists cfg' es, send cfg ev = Some (cfg', es).
Proof.
  intros Hr Hs. destruct cfg as [s c].
  assert (Hne : exists m, Js.lastElement (messages c) = Some m).
  { apply lastElement_some. destruct (reachable_appends _ Hr) as [a [E _]].
    cbn in E. rewrite E. discriminate. }
  destruct Hne as [m Hm].
  destruct s; unfold settled in Hs; cbn in Hs;
    repeat match type of Hs with
           | (if ?b then _ else _) = _ => destruct b
           end; try discriminate Hs.
  all: try (destruct ev as [[]|[]| | |[]]; unfold send;
            repeat (cbn -[Js.lastElement];
                    rewrite ?lastElement_snoc, ?Hm); eauto; fail).
  - destruct ev as [?|[raw|k]|?|?|[]];
      try solve [do 2 eexists; reflexivity].
    destruct (keypress_outcome c k) as [s [c' [es [_ [H _]]]]]. eauto.
  - destruct ev as [?|?|?|output|?];
      try solve [do 2 eexists; reflexivity].
    unfold send, isYesKey, isNoKey, keyIs. cbn.
    destruct (String.eqb output "y"); cbn; eauto.
    destruct (String.eqb output "n"); cbn; eauto.
Qed.

(** Every sequence of events runs to a configuration. *)
Lemma run_total (evs : list Event) (cfg : Config) :
  reachable cfg -> settled cfg ->
  exists cfg' es, run cfg evs = Some (cfg', es).
Proof.
  revert cfg. induction evs as [|ev evs IH]; intros cfg Hr Hs; cbn.
  - eauto.
  - destruct (machine_total cfg ev Hr Hs) as [cfg1 [es1 H1]]. rewrite H1.
    destruct (send_reachable _ _ _ _ Hr Hs H1) as [Hr1 Hs1].
    destruct (IH cfg1 Hr1 Hs1) as [cfg2 [es2 H2]]. rewrite H2. eauto.
Qed.

End Totality.

(** * Further properties of main.ts *)

(** ** The requests *)

Section Requests.

Lemma percentDecode_encode_byte (c : ascii) (rest : string) :
  percentDecode ((if isUnreserved c then String c "" else percentEncode c)
                 ++ rest)
  = String c (percentDecode rest).
Proof.
  destruct c as [[] [] [] [] [] [] [] []]; reflexivity.
Qed.

Lemma percentDecode_encode (s : string) :
  percentDecode (encodeURIComponent s) = s.
Proof.
  induction s as [|c s IH]; [reflexivity|].
  cbn [encodeURIComponent]. now rewrite percentDecode_encode_byte, IH.
Qed.

Lemma encode_byte_safe (c d : ascii) :
  In d (list_ascii_of_string
          (if isUnreserved c then String c "" else percentEncode c)) ->
  isUriSafe d = true.
Proof.
  destruct c as [[] [] [] [] [] [] [] []]; cbn;
    intros H; repeat (destruct H as [<-|H]; [reflexivity|]); contradiction.
Qed.

Lemma list_ascii_app (a b : string) :
  list_ascii_of_string (a ++ b)
  = list_ascii_of_string a ++ list_ascii_of_string b.
Proof. induction a as [|c a IH]; cbn; [reflexivity | now rewrite IH]. Qed.

Lemma encodeURIComponent_safe (s : string) (d : ascii) :
  In d (list_ascii_of_string (encodeURIComponent s)) -> isUriSafe d = true.
Proof.
  induction s as [|c s IH]; cbn [encodeURIComponent]; [contradiction|].
  rewrite list_ascii_app. intros H. apply in_app_or in H as [H|H].
  - exact (encode_byte_safe c d H).
  - exact (IH H).
Qed.

Lemma string_app_inv_head (a b c : string) :
  (a ++ b)%string = (a ++ c)%string -> b = c.
Proof. induction a as [|x a IH]; cbn; [auto|]. intros [= H]. auto. Qed.

Lemma string_app_length (a b : string) :
  String.length (a ++ b) = String.length a + String.length b.
Proof. induction a as [|x a IH]; cbn; [reflexivity | now rewrite IH]. Qed.

Lemma string_app_inv_tail (a b c : string) :
  (a ++ c)%string = (b ++ c)%string -> a = b.
Proof.
  revert b. induction a as [|x a IH]; intros [|y b]; cbn; intros H.
  - reflexivity.
  - apply (f_equal String.length) in H. cbn in H.
    rewrite string_app_length in H. lia.
  - apply (f_equal String.length) in H. cbn in H.
    rewrite string_app_length in H. lia.
  - injection H as -> H. now rewrite (IH _ H).
Qed.

End Requests.

(** X1.  The request of [fhSay] determines the text: two texts with the
    same URL are equal.  The encoded text in the URL consists of
    unreserved characters, percent signs and upper-case hexadecimal
    digits only, so it contains none of the characters that delimit a
    query, and a text of unreserved characters appears unchanged.  The
    request is a POST with an empty body whatever the text, and the
    pause after it is 13000 ms for the first message and 1000 ms
    otherwise. *)
Theorem fhSay_request_carries_text (text text' : string) (first : bool) :
  (url (fhSayRequest text) = url (fhSayRequest text') -> text = text')
  /\ (exists encoded,
         url (fhSayRequest text)
         = ("http://127.0.0.1:54321/furhat/say?text=" ++ encoded
              ++ "&blocking=true")%string
         /\ percentDecode encoded = text
         /\ (forall d, In d (list_ascii_of_string encoded) ->
                       isUriSafe d = true /\ ~ In d uriDelimiters)
         /\ (forallb isUnreserved (list_ascii_of_string text) = true ->
             encoded = text))
  /\ method (fhSayRequest text) = "POST"
  /\ body (fhSayRequest text) = ""
  /\ snd (fhSay text first) = (if first then 13000%N else 1000%N).
Proof.
  split; [|split; [|repeat split]].
  - cbn [fhSayRequest post url]. intros H.
    apply string_app_inv_head in H. apply string_app_inv_head in H.
    apply string_app_inv_head in H. apply string_app_inv_tail in H.
    rewrite <- (percentDecode_encode text), H. apply percentDecode_encode.
  - exists (encodeURIComponent text). split; [reflexivity|].
    split; [apply percentDecode_encode|]. split.
    + intros d Hd. apply encodeURIComponent_safe in Hd. split; [exact Hd|].
      intros Hin. cbn in Hin.
      repeat (destruct Hin as [<-|Hin]; [discriminate Hd|]). exact Hin.
    + induction text as [|c s IH]; cbn; [reflexivity|].
      intros H. apply andb_true_iff in H as [Hc Hs].
      rewrite Hc. cbn. now rewrite (IH Hs).
Qed.

(** ** The flows of the machine *)

Section Flows.

Lemma actorCalls_app (es es' : list Effect) :
  actorCalls (es ++ es') = actorCalls es ++ actorCalls es'.
Proof. apply filter_app. Qed.

Lemma actorCalls_commitLog (k : string) (c : DMContext) :
  actorCalls (commitLog k c) = [].
Proof. now apply filter_commitLog. Qed.

Lemma filter_numbered {A : Type} (f : Effect -> bool)
      (render : A -> string) (xs : list A) :
  (forall line, f (consoleLog line) = false) ->
  filter f (numbered render xs) = [].
Proof.
  intros Hf. unfold numbered.
  induction (combine _ _) as [|ix l IH]; cbn; [reflexivity|].
  now rewrite Hf.
Qed.

Lemma filter_printHistory (f : Effect -> bool) (ms : list Message) :
  (forall line, f (consoleLog line) = false) ->
  filter f (printHistory ms) = [].
Proof.
  intros Hf. unfold printHistory. rewrite !filter_app, filter_numbered by easy.
  cbn. now rewrite !Hf.
Qed.

Lemma numbered_from {A : Type} (render : A -> string) (xs : list A)
      (start i : nat) (x : A) :
  nth_error xs i = Some x ->
  nth_error (map (fun ix => consoleLog (Js.numberToString (fst ix) ++ ". "
                                          ++ render (snd ix))%string)
                 (combine (seq start (List.length xs)) xs)) i
  = Some (consoleLog (Js.numberToString (start + i) ++ ". "
                        ++ render x)%string).
Proof.
  revert start i. induction xs as [|y xs IH]; intros start [|i];
    cbn [combine seq map nth_error List.length fst snd]; try discriminate.
  - intros [= ->]. now rewrite Nat.add_0_r.
  - intros H. rewrite (IH (S start) i H). now rewrite Nat.add_succ_r.
Qed.

Lemma numbered_length {A : Type} (render : A -> string) (xs : list A) :
  List.length (numbered render xs) = List.length xs.
Proof.
  unfold numbered. rewrite length_map, length_combine, length_seq.
  apply Nat.min_id.
Qed.

End Flows.

(** X2.  However the three actors of the setup settle, the machine
    reaches the listening race with the initial history, an empty
    buffer and no key: a voice error skips attending the user, and the
    introduction is the only text delivered, with the first-message
    flag set.  The flag of the context is cleared exactly when that
    delivery succeeded. *)
Theorem setup_never_blocks (voiceOk attendOk speakOk : bool) :
  exists c es,
    run (SetVoice, initialContext) (setupEvents voiceOk attendOk speakOk)
    = Some ((ListeningOrWaitingForKey, c), es)
    /\ messages c = initialMessages
    /\ userSpeechBuffer c = []
    /\ keyPressed c = None
    /\ pendingManipulation c = None
    /\ isFirstMessage c = negb speakOk
    /\ actorCalls es
       = (if voiceOk then [invokeActor fhAttend noInput] else [])
         ++ [invokeActor fhSpeak (speakInput introduction true);
             invokeActor listenOrKeypress noInput].
Proof.
  destruct voiceOk, attendOk, speakOk; do 2 eexists;
    (split; [reflexivity|]); repeat split.
Qed.

(** X3.  The discuss key starts the language model exactly once, on the
    history extended by the committed speech; its reply is appended as
    one assistant turn and is the text handed to the speech actor, with
    the short pause; once the delivery settles, with or without error,
    the race starts again and the history is the old one, the committed
    turn and the reply. *)
Theorem discuss_round (c : DMContext) (reply : string) (delivery : Event) :
  In delivery deliveryEvents ->
  exists c1 es1 c2 es2 es3,
    send (ListeningOrWaitingForKey, c) (doneRace (keypress "l"))
    = Some ((ProcessingResponse, c1), es1)
    /\ actorCalls es1
       = [invokeActor chatCompletion
            (chatInput (messages c ++ committedTurns (userSpeechBuffer c)))]
    /\ send (ProcessingResponse, c1) (doneChat reply)
       = Some ((Speaking, c2), es2)
    /\ messages c2
       = messages c ++ committedTurns (userSpeechBuffer c)
         ++ [ {| role := assistant; content := reply |} ]
    /\ actorCalls es2 = [invokeActor fhSpeak (speakInput reply false)]
    /\ send (Speaking, c2) delivery
       = Some ((ListeningOrWaitingForKey, c2), es3)
    /\ actorCalls es3 = [invokeActor listenOrKeypress noInput].
Proof.
  intros Hd. rewrite send_discuss.
  assert (E : send (ProcessingResponse, afterKeypress "l" c) (doneChat reply)
              = Some ((Speaking,
                       appendMessage
                         {| role := assistant; content := reply |}
                         (afterKeypress "l" c)),
                      [consoleLog ("LLM responded: " ++ reply)%string;
                       invokeActor fhSpeak (speakInput reply false)])).
  { unfold send. cbn -[append Js.lastElement afterKeypress].
    rewrite lastElement_snoc. reflexivity. }
  destruct Hd as [<-|[<-|[]]]; do 5 eexists;
    (split; [reflexivity|]);
    (split; [rewrite actorCalls_app, actorCalls_commitLog,
               afterKeypress_messages; reflexivity|]);
    (split; [exact E|]);
    (split; [cbn [messages appendMessage setMessages];
             rewrite afterKeypress_messages, <- app_assoc; reflexivity|]);
    (split; [reflexivity|]); split; reflexivity.
Qed.

Lemma discuss_round_witness :
  In (errorOf fhSpeak) deliveryEvents
  /\ exists c1 es1,
      send (ListeningOrWaitingForKey, initialContext)
           (doneRace (keypress "l"))
      = Some ((ProcessingResponse, c1), es1)
      /\ actorCalls es1
         = [invokeActor chatCompletion (chatInput initialMessages)].
Proof.
  assert (H : In (errorOf fhSpeak) deliveryEvents) by (right; now left).
  split; [exact H|].
  destruct (discuss_round initialContext "Who would you keep?" _ H)
    as [c1 [es1 [_ [_ [_ [H1 [H2 _]]]]]]].
  now exists c1, es1.
Defined.

(** X4.  The list key prints the history as it is after the commit of
    the buffer: the header, one numbered line per turn in order, with
    its role and content, and the closing line.  It starts no actor but
    the race, and apart from the commit and the recorded key it leaves
    the context as it was. *)
Theorem list_key_prints_history (c : DMContext) :
  exists c' es,
    send (ListeningOrWaitingForKey, c) (doneRace (keypress "m"))
    = Some ((ListeningOrWaitingForKey, c'), es)
    /\ messages c' = messages c ++ committedTurns (userSpeechBuffer c)
    /\ lastResult c' = lastResult c
    /\ isFirstMessage c' = isFirstMessage c
    /\ pendingManipulation c' = pendingManipulation c
    /\ actorCalls es = [invokeActor listenOrKeypress noInput]
    /\ (exists before after,
           es = before ++ printHistory (messages c') ++ after
           /\ ~ printsTranscript before /\ ~ printsTranscript after)
    /\ List.length (printHistory (messages c'))
       = List.length (messages c') + 2
    /\ hd_error (printHistory (messages c')) = Some transcriptHeader
    /\ (forall i m,
           nth_error (messages c') i = Some m ->
           nth_error (printHistory (messages c')) (S i)
           = Some (consoleLog (Js.numberToString (S i) ++ ". ["
                                 ++ roleName (role m) ++ "]: "
                                 ++ content m)%string)).
Proof.
  rewrite send_list.
  pose proof (afterKeypress_frame "m" c) as [_ [Hl [Hf Hp]]].
  do 2 eexists. split; [reflexivity|].
  split; [apply afterKeypress_messages|].
  repeat (split; [assumption|]). split.
  { rewrite !actorCalls_app, actorCalls_commitLog.
    unfold actorCalls. now rewrite filter_printHistory. }
  split.
  { do 2 eexists. split; [reflexivity|]. split.
    - apply commitLog_no_header.
    - unfold printsTranscript. cbn. intros H.
      repeat (destruct H as [H|H]; [discriminate H|]). exact H. }
  split.
  { unfold printHistory. rewrite !length_app, numbered_length. cbn. lia. }
  split; [reflexivity|].
  intros i m Hm. unfold printHistory, numbered. cbn [app nth_error].
  rewrite nth_error_app1.
  - now rewrite (numbered_from renderMessage _ 1 i m Hm).
  - rewrite length_map, length_combine, length_seq, Nat.min_id.
    apply nth_error_Some. now rewrite Hm.
Qed.

(** X5.  For each of the twelve stimulus keys and whatever the buffer
    holds, the keypress appends, after the committed speech, exactly one
    assistant turn with the phrase of the key, hands that phrase to the
    speech actor with the short pause, and starts no other actor: the
    language model is not called.  When the delivery settles the race
    starts again with the same history. *)
Theorem stimulus_key_injects_phrase
        (c : DMContext) (k phrase : string) (delivery : Event) :
  lookupPhrase manipulations k = Some phrase ->
  In delivery deliveryEvents ->
  exists c1 es1 c2 es2,
    send (ListeningOrWaitingForKey, c) (doneRace (keypress k))
    = Some ((SpeakManipulation, c1), es1)
    /\ messages c1
       = messages c ++ committedTurns (userSpeechBuffer c)
         ++ [ {| role := assistant; content := phrase |} ]
    /\ actorCalls es1 = [invokeActor fhSpeak (speakInput phrase false)]
    /\ send (SpeakManipulation, c1) delivery
       = Some ((ListeningOrWaitingForKey, c2), es2)
    /\ messages c2 = messages c1
    /\ userSpeechBuffer c2 = []
    /\ actorCalls es2 = [invokeActor listenOrKeypress noInput].
Proof.
  intros Hk Hd. rewrite (send_manipulation _ _ _ Hk).
  pose proof (afterKeypress_buffer k c) as Hb.
  destruct Hd as [<-|[<-|[]]]; do 4 eexists;
    (split; [reflexivity|]);
    (split; [cbn [messages setPendingManipulation appendMessage setMessages];
             rewrite afterKeypress_messages, <- app_assoc; reflexivity|]);
    (split; [rewrite actorCalls_app, actorCalls_commitLog; reflexivity|]);
    (split; [reflexivity|]); (split; [reflexivity|]);
    (split; [exact Hb|]); reflexivity.
Qed.

Lemma stimulus_key_injects_phrase_witness :
  lookupPhrase manipulations "w" = Some "........ The pregnant lady?"
  /\ In (doneVoid fhSpeak) deliveryEvents
  /\ exists c1 es1,
      send (ListeningOrWaitingForKey, initialContext)
           (doneRace (keypress "w"))
      = Some ((SpeakManipulation, c1), es1)
      /\ actorCalls es1
         = [invokeActor fhSpeak
              (speakInput "........ The pregnant lady?" false)].
Proof.
  assert (H : In (doneVoid fhSpeak) deliveryEvents) by now left.
  split; [reflexivity|]. split; [exact H|].
  destruct (stimulus_key_injects_phrase initialContext "w" _ _ eq_refl H)
    as [c1 [es1 [_ [_ [H1 [_ [H2 _]]]]]]].
  now exists c1, es1.
Defined.

(** ** The steps of the machine, case by case *)

Ltac step_on H c :=
  lazymatch type of H with
  | send (ListeningOrWaitingForKey, _) (doneRace (keypress ?k)) = _ =>
      let Hph := fresh "Hph" in
      let Hun := fresh "Hun" in
      destruct (key_class c k) as [->|[->|[->|[[? Hph]|Hun]]]];
      [ rewrite send_quit in H
      | rewrite send_discuss in H
      | rewrite send_list in H
      | rewrite (send_manipulation _ _ _ Hph) in H
      | rewrite (send_unknown _ _ Hun) in H ]
  | send (LastQuestionWaitForYN, _) (doneKey ?k) = _ =>
      let Hy := fresh "Hy" in
      let Hn := fresh "Hn" in
      destruct (String.eqb_spec k "y") as [->|Hy];
      [ rewrite send_confirm_yes in H
      | destruct (String.eqb_spec k "n") as [->|Hn];
        [ rewrite send_confirm_no in H
        | rewrite (proj1 (send_confirm_other c k Hy Hn)) in H ] ]
  | _ =>
      unfold send in H;
      repeat (cbn -[Js.lastElement append] in H;
              rewrite ?lastElement_snoc in H;
              try match type of H with
                  | context [match Js.lastElement ?m with _ => _ end] =>
                      let El := fresh "El" in
                      destruct (Js.lastElement m) eqn:El
                  end)
  end.

Lemma outcome_inj (s s' : State) (c c' : DMContext) (es es' : list Effect) :
  Some ((s, c), es) = Some ((s', c'), es') -> s = s' /\ c = c' /\ es = es'.
Proof. intros [= -> -> ->]. auto. Qed.

Ltac use_last :=
  cbn -[Js.lastElement]; rewrite ?lastElement_snoc;
  repeat match goal with
         | E : Js.lastElement _ = _ |- _ => rewrite E
         end.

Lemma send_table (s : State) (c : DMContext) (ev : Event)
      (s' : State) (c' : DMContext) (es : list Effect) :
  send (s, c) ev = Some ((s', c'), es) ->
  follows s s' = true
  /\ List.length (actorCalls es) <= 1
  /\ forall src input,
      In (invokeActor src input) es ->
      invokes s' = Some src
      /\ invokeInput s' c' = Some input
      /\ enteredBy s' s ev
      /\ forall text first,
          input = speakInput text first ->
          (exists m, Js.lastElement (messages c') = Some m /\ content m = text)
          \/ (s' = End /\ text = farewell).
Proof.
  intros H.
  enough (Hgoal : follows s s' = true
                  /\ List.length (actorCalls es) <= 1
                  /\ forall src input,
                      In (invokeActor src input) (actorCalls es) ->
                      invokes s' = Some src
                      /\ invokeInput s' c' = Some input
                      /\ enteredBy s' s ev
                      /\ forall text first,
                          input = speakInput text first ->
                          (exists m, Js.lastElement (messages c') = Some m
                                     /\ content m = text)
                          \/ (s' = End /\ text = farewell)).
  { destruct Hgoal as [H0 [H1 H2]]. split; [exact H0|]. split; [exact H1|].
    intros src input Hin. apply H2. apply filter_In. now split. }
  destruct s; destruct ev as [[]|[raw|k]|reply|k|[]]; step_on H c;
    try discriminate H; apply outcome_inj in H as [<- [<- <-]];
    (split; [reflexivity|]);
    unfold actorCalls;
    rewrite ?filter_app, ?filter_commitLog, ?filter_printHistory
      by (intro; reflexivity);
    cbn -[Js.lastElement append];
    (split; [lia|]); intros src input Hin;
    repeat (destruct Hin as [[= <- <-]|Hin]); try contradiction.
  all: split; [reflexivity|]; split; [use_last; reflexivity|]; split.
  all: try (cbn; intuition eauto; fail).
  all: try (intros text first [= <- <-]; left; use_last; eauto; fail).
  all: try (intros text first [= <- <-]; right; auto; fail).
  all: try (intros ? ? Hx; discriminate Hx).
Qed.

(** ** The marker and the joined fragments *)

Lemma prefix_before (t a b post : string) (c : ascii) :
  ~ In c (list_ascii_of_string t) ->
  (t ++ post)%string = (a ++ String c b)%string ->
  exists post', a = (t ++ post')%string.
Proof.
  revert a. induction t as [|y t IH]; intros a Hc H.
  - now exists a.
  - destruct a as [|x a]; cbn in H.
    + injection H as -> _. exfalso. apply Hc. now left.
    + injection H as -> H. destruct (IH a) as [post' ->]; [|exact H|].
      * intros Hin. apply Hc. now right.
      * now exists post'.
Qed.

Lemma occurs_across (t a b : string) (c : ascii) :
  ~ In c (list_ascii_of_string t) ->
  occursIn t (a ++ String c b) ->
  occursIn t a \/ occursIn t b.
Proof.
  intros Hc. induction a as [|x a IH]; intros [pre [post H]].
  - destruct pre as [|p pre]; cbn in H.
    + destruct t as [|y t]; [left; now exists "", ""|].
      cbn in H. injection H as -> _. exfalso. apply Hc. now left.
    + injection H as _ H. right. now exists pre, post.
  - destruct pre as [|p pre].
    + cbn [append] in H. symmetry in H. 
      change (String x (a ++ String c b)) with ((String x a) ++ String c b)%string in H.
      destruct (prefix_before _ _ _ _ _ Hc H) as [post' E].
      left. exists "", post'. exact E.
    + cbn in H. injection H as _ H.
      destruct IH as [[pre' [post' ->]]|Hb]; [now exists pre, post| |now right].
      left. now exists (String x pre'), post'.
Qed.

Lemma toLowerCase_join (xs : list string) :
  Js.toLowerCase (Js.join " " xs) = Js.join " " (map Js.toLowerCase xs).
Proof.
  unfold Js.join. induction xs as [|x [|y xs] IH]; [reflexivity|reflexivity|].
  cbn [String.concat map] in *. rewrite !toLowerCase_app, IH. reflexivity.
Qed.

Lemma includes_join (t : string) (xs : list string) :
  ~ In " "%char (list_ascii_of_string t) ->
  t <> "" ->
  Js.includes (Js.join " " xs) t = true ->
  exists x, In x xs /\ Js.includes x t = true.
Proof.
  intros Hc Ht. unfold Js.join.
  induction xs as [|x [|y xs] IH]; intros H.
  - change (String.concat " " []) with "" in H.
    apply includes_spec in H as [pre [post H]].
    destruct pre; [destruct t; [congruence|discriminate]|discriminate].
  - exists x. split; [now left|exact H].
  - cbn [String.concat] in H. apply includes_spec in H.
    change (x ++ " " ++ String.concat " " (y :: xs))%string
      with (x ++ String " " (String.concat " " (y :: xs)))%string in H.
    apply (occurs_across _ _ _ _ Hc) in H as [H|H].
    + exists x. split; [now left | now apply includes_spec].
    + apply includes_spec in H. destruct (IH H) as [z [Hz Hi]].
      exists z. split; [now right|exact Hi].
Qed.

Lemma join_noMarker (xs : list string) :
  forallb noMarker xs = true -> noMarker (Js.join " " xs) = true.
Proof.
  intros H. unfold noMarker. apply negb_true_iff.
  destruct (Js.includes _ _) eqn:E; [|reflexivity]. exfalso.
  rewrite toLowerCase_join in E.
  apply includes_join in E as [x [Hx Hi]].
  - apply in_map_iff in Hx as [u [<- Hu]].
    rewrite forallb_forall in H. specialize (H u Hu).
    unfold noMarker in H. rewrite Hi in H. discriminate.
  - cbn. intuition discriminate.
  - discriminate.
Qed.

Lemma sanitize_noMarker (u : string) : noMarker (sanitizeUtterance u) = true.
Proof.
  unfold sanitizeUtterance, noMarker.
  destruct (Js.includes (Js.toLowerCase u) "nomatch") eqn:E; [reflexivity|].
  now rewrite E.
Qed.

(** ** What a step starts *)

(** X6.  A step starts the language model only when the discuss key is
    pressed during the race: the machine is then in
    [ProcessingResponse], the call is the only actor started, and its
    input is the whole history of the resulting context, that is the
    history before the key followed by the committed speech. *)
Theorem language_model_called_only_on_discuss
        (s s' : State) (c c' : DMContext) (ev : Event) (es : list Effect)
        (input : ActorInput) :
  send (s, c) ev = Some ((s', c'), es) ->
  In (invokeActor chatCompletion input) es ->
  s = ListeningOrWaitingForKey
  /\ ev = doneRace (keypress "l")
  /\ s' = ProcessingResponse
  /\ input = chatInput (messages c')
  /\ messages c' = messages c ++ committedTurns (userSpeechBuffer c)
  /\ actorCalls es = [invokeActor chatCompletion input].
Proof.
  intros H Hin.
  destruct (send_table _ _ _ _ _ _ H) as [_ [_ Htab]].
  destruct (Htab _ _ Hin) as [Hs' [Hinput [Hent _]]].
  destruct s'; try discriminate Hs'.
  cbn in Hinput, Hent. destruct Hent as [-> ->].
  injection Hinput as <-.
  rewrite send_discuss in H. apply outcome_inj in H as [_ [<- <-]].
  repeat (split; [reflexivity|]). split; [apply afterKeypress_messages|].
  now rewrite actorCalls_app, actorCalls_commitLog.
Qed.

Lemma language_model_called_only_on_discuss_witness :
  exists c' es,
    send (ListeningOrWaitingForKey, initialContext) (doneRace (keypress "l"))
    = Some ((ProcessingResponse, c'), es)
    /\ In (invokeActor chatCompletion (chatInput initialMessages)) es
    /\ messages c' = initialMessages.
Proof.
  assert (H : send (ListeningOrWaitingForKey, initialContext)
                   (doneRace (keypress "l"))
              = Some ((ProcessingResponse, afterKeypress "l" initialContext),
                      commitLog "l" initialContext
                      ++ [consoleLog "Getting LLM response...";
                          invokeActor chatCompletion
                            (chatInput initialMessages)]))
    by reflexivity.
  assert (Hin : In (invokeActor chatCompletion (chatInput initialMessages))
                   (commitLog "l" initialContext
                    ++ [consoleLog "Getting LLM response...";
                        invokeActor chatCompletion
                          (chatInput initialMessages)])).
  { apply in_or_app. right. right. now left. }
  do 2 eexists. split; [exact H|]. split; [exact Hin|].
  exact (proj1 (proj2 (proj2 (proj2 (proj2
           (language_model_called_only_on_discuss _ _ _ _ _ _ _ H Hin)))))).
Defined.

(** X7.  Whatever a step hands to the speech actor is on record: the
    text is the content of the last turn of the history of the
    resulting context, except for the farewell of [End], which is
    recorded only once its delivery succeeded.  A stimulus is spoken
    from the pending phrase, which is that last turn. *)
Theorem delivered_text_is_in_history
        (s s' : State) (c c' : DMContext) (ev : Event) (es : list Effect)
        (text : string) (first : bool) :
  send (s, c) ev = Some ((s', c'), es) ->
  In (invokeActor fhSpeak (speakInput text first)) es ->
  ((exists m, Js.lastElement (messages c') = Some m /\ content m = text)
   \/ (s' = End /\ text = farewell))
  /\ (s' = SpeakManipulation -> pendingManipulation c' = Some text)
  /\ actorCalls es = [invokeActor fhSpeak (speakInput text first)].
Proof.
  intros H Hin.
  destruct (send_table _ _ _ _ _ _ H) as [_ [Hlen Htab]].
  destruct (Htab _ _ Hin) as [Hs' [Hinput [Hent Htext]]].
  split; [exact (Htext _ _ eq_refl)|]. split.
  - intros ->. cbn in Hent. destruct Hent as [-> [k [phrase [-> Hk]]]].
    rewrite (send_manipulation _ _ _ Hk) in H.
    apply outcome_inj in H as [_ [<- <-]].
    apply in_app_or in Hin as [Hin|Hin].
    + exfalso. assert (Hf : In (invokeActor fhSpeak (speakInput text first))
                               (actorCalls (commitLog k c)))
        by (apply filter_In; now split).
      now rewrite actorCalls_commitLog in Hf.
    + destruct Hin as [Hin|[[= <- <-]|[]]]; [discriminate Hin|]. reflexivity.
  - assert (Hf : In (invokeActor fhSpeak (speakInput text first))
                    (actorCalls es)) by (apply filter_In; now split).
    destruct (actorCalls es) as [|e [|e' l]]; [contradiction| |cbn in Hlen; lia].
    destruct Hf as [->|[]]. reflexivity.
Qed.

Lemma delivered_text_is_in_history_witness :
  exists c' es m,
    send (ProcessingResponse, initialContext) (doneChat "Why the pilot?")
    = Some ((Speaking, c'), es)
    /\ In (invokeActor fhSpeak (speakInput "Why the pilot?" false)) es
    /\ Js.lastElement (messages c') = Some m
    /\ content m = "Why the pilot?".
Proof.
  assert (H : send (ProcessingResponse, initialContext)
                   (doneChat "Why the pilot?")
              = Some ((Speaking,
                       appendMessage
                         {| role := assistant; content := "Why the pilot?" |}
                         initialContext),
                      [consoleLog "LLM responded: Why the pilot?";
                       invokeActor fhSpeak
                         (speakInput "Why the pilot?" false)]))
    by reflexivity.
  assert (Hin : In (invokeActor fhSpeak (speakInput "Why the pilot?" false))
                   [consoleLog "LLM responded: Why the pilot?";
                    invokeActor fhSpeak (speakInput "Why the pilot?" false)])
    by (right; now left).
  destruct (delivered_text_is_in_history _ _ _ _ _ _ _ _ H Hin)
    as [[[m [Hm Ht]]|[Hs _]] _]; [|discriminate Hs].
  do 3 eexists. split; [exact H|]. split; [exact Hin|]. split; eassumption.
Defined.

(** X8.  A step starts at most one actor, and an actor it starts is the
    one the state it comes to rest in invokes, with the input that
    state computes from the resulting context; the step that starts it
    is one of the transitions into that state. *)
Theorem one_actor_per_step
        (s s' : State) (c c' : DMContext) (ev : Event) (es : list Effect) :
  send (s, c) ev = Some ((s', c'), es) ->
  List.length (actorCalls es) <= 1
  /\ forall src input,
      In (invokeActor src input) es ->
      invokes s' = Some src
      /\ invokeInput s' c' = Some input
      /\ enteredBy s' s ev
      /\ actorCalls es = [invokeActor src input].
Proof.
  intros H. destruct (send_table _ _ _ _ _ _ H) as [_ [Hlen Htab]].
  split; [exact Hlen|]. intros src input Hin.
  destruct (Htab _ _ Hin) as [Hs' [Hinput [Hent _]]].
  repeat (split; [assumption|]).
  assert (Hf : In (invokeActor src input) (actorCalls es))
    by (apply filter_In; now split).
  destruct (actorCalls es) as [|e [|e' l]]; [contradiction| |cbn in Hlen; lia].
  destruct Hf as [->|[]]. reflexivity.
Qed.

Lemma one_actor_per_step_witness :
  exists c' es,
    send (End, initialContext) (doneVoid fhSpeak)
    = Some ((LastQuestionWaitForYN, c'), es)
    /\ List.length (actorCalls es) <= 1.
Proof.
  assert (H : send (End, initialContext) (doneVoid fhSpeak)
              = Some ((LastQuestionWaitForYN,
                       appendMessage
                         {| role := assistant; content := farewell |}
                         initialContext),
                      [consoleLog (nl ++ ">>> DO YOU WANT TO PRINT THE CONVERSATION (Y/N) <<<")%string;
                       invokeActor waitForKey noInput]))
    by reflexivity.
  do 2 eexists. split; [exact H|].
  exact (proj1 (one_actor_per_step _ _ _ _ _ _ H)).
Defined.

(** ** Runs of the machine *)

Lemma filter_length_le {A : Type} (f g : A -> bool) (l : list A) :
  (forall x, f x = true -> g x = true) ->
  List.length (filter f l) <= List.length (filter g l).
Proof.
  intros Hfg. induction l as [|x l IH]; cbn; [lia|].
  destruct (f x) eqn:Ef.
  - rewrite (Hfg x Ef). cbn. lia.
  - destruct (g x); cbn; lia.
Qed.

Lemma follows_phase (s s' : State) :
  follows s s' = true -> phase s <= phase s'.
Proof. destruct s, s'; cbn; intros H; try discriminate H; lia. Qed.

Lemma send_setup_context (s s' : State) (c c' : DMContext) (ev : Event)
      (es : list Effect) :
  inSetup s = true ->
  send (s, c) ev = Some ((s', c'), es) -> c' = c.
Proof.
  intros Hs H. destruct s; try discriminate Hs;
    destruct ev as [[]|[raw|k]|reply|k|[]]; step_on H c;
    try discriminate H; apply outcome_inj in H as [_ [<- _]]; reflexivity.
Qed.

Lemma isLongPause_inv (e : Effect) :
  isLongPause e = true ->
  exists text, e = invokeActor fhSpeak (speakInput text true).
Proof.
  destruct e as [| |[] [| text [] |]|]; try discriminate. intros _. now exists text.
Qed.

Lemma step_long_pause (s s' : State) (c c' : DMContext) (ev : Event)
      (es : list Effect) :
  send (s, c) ev = Some ((s', c'), es) ->
  (inSetup s = true -> c = initialContext) ->
  filter isLongPause es = []
  \/ (s' = InitialSpeak /\ inSetup s = true
      /\ filter isLongPause es
         = [invokeActor fhSpeak (speakInput introduction true)]).
Proof.
  intros H Hc.
  destruct (send_table _ _ _ _ _ _ H) as [_ [Hlen Htab]].
  assert (Hle : List.length (filter isLongPause es) <= 1).
  { apply Nat.le_trans with (List.length (actorCalls es)); [|exact Hlen].
    apply filter_length_le. intros x Hx.
    apply isLongPause_inv in Hx as [text ->]. reflexivity. }
  destruct (filter isLongPause es) as [|e [|e' l]] eqn:Ef;
    [now left| |cbn in Hle; lia].
  right.
  assert (He : In e (filter isLongPause es)) by (rewrite Ef; now left).
  apply filter_In in He as [Hin Hlong].
  apply isLongPause_inv in Hlong as [text ->].
  destruct (Htab _ _ Hin) as [Hs' [Hinput [Hent _]]].
  destruct s'; try discriminate Hs'; cbn in Hinput;
    try (injection Hinput as _ Hx; discriminate Hx).
  - assert (Hsetup : inSetup s = true).
    { cbn in Hent. destruct Hent as [[-> _]|[-> _]]; reflexivity. }
    rewrite (send_setup_context _ _ _ _ _ _ Hsetup H), (Hc Hsetup) in Hinput.
    injection Hinput as <-. auto.
  - destruct (Js.lastElement (messages c')); [|discriminate Hinput].
    injection Hinput as _ Hx. discriminate Hx.
Qed.

Lemma run_long_pause (evs : list Event) (s : State) (c : DMContext)
      (cfg : Config) (es : list Effect) :
  run (s, c) evs = Some (cfg, es) ->
  (inSetup s = true -> c = initialContext) ->
  filter isLongPause es = []
  \/ (phase s < 2
      /\ filter isLongPause es
         = [invokeActor fhSpeak (speakInput introduction true)]).
Proof.
  revert s c cfg es. induction evs as [|ev evs IH]; intros s c cfg es; cbn [run].
  - intros [= _ <-] _. now left.
  - destruct (send (s, c) ev) as [[[s1 c1] es1]|] eqn:Hsend; [|discriminate].
    destruct (run (s1, c1) evs) as [[cfg2 es2]|] eqn:Hrun; [|discriminate].
    intros [= <- <-] Hc. rewrite filter_app.
    pose proof (proj1 (send_table _ _ _ _ _ _ Hsend)) as Hfol.
    assert (Hc1 : inSetup s1 = true -> c1 = initialContext).
    { intros H1. assert (Hs : inSetup s = true)
        by (destruct s, s1; try discriminate Hfol; try discriminate H1;
            reflexivity).
      rewrite (send_setup_context _ _ _ _ _ _ Hs Hsend). auto. }
    destruct (step_long_pause _ _ _ _ _ _ Hsend Hc) as [E1|[-> [Hs E1]]];
      rewrite E1.
    + destruct (IH _ _ _ _ Hrun Hc1) as [E2|[Hp E2]]; rewrite E2; [now left|].
      right. split; [|reflexivity].
      apply follows_phase in Hfol. lia.
    + destruct (IH _ _ _ _ Hrun Hc1) as [E2|[Hp E2]]; [|cbn in Hp; lia].
      rewrite E2. right. split; [|reflexivity].
      destruct s; try discriminate Hs; cbn; lia.
Qed.

(** X9.  In a run from the start the long pause of the first message is
    used at most once, and only for the introduction: every other text
    handed to the speech actor is followed by the pause of 1000 ms. *)
Theorem long_pause_only_for_introduction
        (evs : list Event) (cfg : Config) (es : list Effect) :
  run (SetVoice, initialContext) evs = Some (cfg, es) ->
  (filter isLongPause es = []
   \/ filter isLongPause es
      = [invokeActor fhSpeak (speakInput introduction true)])
  /\ forall text first,
      In (invokeActor fhSpeak (speakInput text first)) es ->
      (text = introduction /\ snd (fhSay text first) = 13000%N)
      \/ snd (fhSay text first) = 1000%N.
Proof.
  intros H.
  assert (Hrun : filter isLongPause es = []
                 \/ filter isLongPause es
                    = [invokeActor fhSpeak (speakInput introduction true)]).
  { destruct (run_long_pause _ _ _ _ _ H (fun _ => eq_refl)) as [E|[_ E]];
      auto. }
  split; [exact Hrun|]. intros text [|] Hin; [left|now right].
  assert (Hf : In (invokeActor fhSpeak (speakInput text true))
                  (filter isLongPause es)) by (apply filter_In; now split).
  destruct Hrun as [E|E]; rewrite E in Hf; [contradiction|].
  destruct Hf as [[= <-]|[]]. now split.
Qed.

Lemma long_pause_only_for_introduction_witness :
  exists cfg es,
    run (SetVoice, initialContext) boot = Some (cfg, es)
    /\ (filter isLongPause es = []
        \/ filter isLongPause es
           = [invokeActor fhSpeak (speakInput introduction true)]).
Proof.
  do 2 eexists. split; [reflexivity|].
  exact (proj1 (long_pause_only_for_introduction boot _ _ eq_refl)).
Defined.

Lemma run_Done (evs : list Event) (c : DMContext) :
  run (Done, c) evs = Some ((Done, c), []).
Proof.
  induction evs as [|ev evs IH]; [reflexivity|].
  cbn [run].
  change (send (Done, c) ev) with (Some ((Done, c), @nil Effect)).
  cbv iota beta. now rewrite IH.
Qed.

Lemma run_phase (evs : list Event) (s s' : State) (c c' : DMContext)
      (es : list Effect) :
  run (s, c) evs = Some ((s', c'), es) -> phase s <= phase s'.
Proof.
  revert s c es. induction evs as [|ev evs IH]; intros s c es; cbn [run].
  - intros [= <- _ _]. lia.
  - destruct (send (s, c) ev) as [[[s1 c1] es1]|] eqn:Hsend; [|discriminate].
    destruct (run (s1, c1) evs) as [[cfg2 es2]|] eqn:Hrun; [|discriminate].
    intros [= -> _].
    apply IH in Hrun. apply send_table, proj1, follows_phase in Hsend. lia.
Qed.

(** X10.  A session only moves forward through its phases (setup,
    introduction, conversation, farewell, confirmation, end): one event
    takes the machine from a state only to itself or along an edge of
    the graph [follows], so no run returns to an earlier phase; once in
    [Done] the machine ignores every event. *)
Theorem session_moves_forward
        (evs : list Event) (s s' : State) (c c' : DMContext)
        (es : list Effect) :
  run (s, c) evs = Some ((s', c'), es) ->
  phase s <= phase s'
  /\ (forall ev s1 c1 es1,
         send (s, c) ev = Some ((s1, c1), es1) -> follows s s1 = true)
  /\ (s = Done -> s' = Done /\ c' = c /\ es = []).
Proof.
  intros H. split; [exact (run_phase _ _ _ _ _ _ H)|]. split.
  - intros ev s1 c1 es1 Hsend. exact (proj1 (send_table _ _ _ _ _ _ Hsend)).
  - intros ->. rewrite run_Done in H. injection H as <- <- <-. auto.
Qed.

Lemma session_moves_forward_witness :
  exists s' c' es,
    run (SetVoice, initialContext)
        (boot ++ [doneRace (keypress "0"); errorOf fhSpeak;
                  doneRace (keypress "l")])
    = Some ((s', c'), es)
    /\ phase SetVoice <= phase s'.
Proof.
  do 3 eexists. split; [reflexivity|].
  exact (proj1 (session_moves_forward
                  (boot ++ [doneRace (keypress "0"); errorOf fhSpeak;
                            doneRace (keypress "l")])
                  SetVoice _ initialContext _ _ eq_refl)).
Defined.

Lemma send_exit (s s' : State) (c c' : DMContext) (ev : Event)
      (es : list Effect) :
  send (s, c) ev = Some ((s', c'), es) ->
  (s' = Done /\ s <> Done /\ filter isExit es = [processExit])
  \/ ((s' <> Done \/ s = Done) /\ filter isExit es = []).
Proof.
  intros H.
  destruct s; destruct ev as [[]|[raw|k]|reply|k|[]]; step_on H c;
    try discriminate H; apply outcome_inj in H as [<- [<- <-]];
    rewrite ?filter_app, ?filter_commitLog, ?filter_printHistory
      by (intro; reflexivity);
    cbn -[append];
    first [ left; split; [reflexivity|]; split; [discriminate|reflexivity]
          | right; split; [left; discriminate | reflexivity]
          | right; split; [right; reflexivity | reflexivity] ].
Qed.

Lemma run_exit (evs : list Event) (s s' : State) (c c' : DMContext)
      (es : list Effect) :
  run (s, c) evs = Some ((s', c'), es) ->
  s <> Done ->
  (s' = Done /\ filter isExit es = [processExit])
  \/ (s' <> Done /\ filter isExit es = []).
Proof.
  revert s c es. induction evs as [|ev evs IH]; intros s c es; cbn [run].
  - intros [= <- _ <-] Hs. now right.
  - destruct (send (s, c) ev) as [[[s1 c1] es1]|] eqn:Hsend; [|discriminate].
    destruct (run (s1, c1) evs) as [[cfg2 es2]|] eqn:Hrun; [|discriminate].
    intros [= -> <-] Hs. rewrite filter_app.
    destruct (send_exit _ _ _ _ _ _ Hsend) as [[-> [_ E1]]|[[Hs1|Hs1] E1]];
      rewrite E1.
    + rewrite run_Done in Hrun. injection Hrun as <- _ <-. now left.
    + exact (IH _ _ _ Hrun Hs1).
    + contradiction.
Qed.

Lemma exit_in_filter (es : list Effect) :
  In processExit es <-> In processExit (filter isExit es).
Proof.
  rewrite filter_In. split; [now split | now intros [H _]].
Qed.

(** Of the entry actions only that of [Done] exits. *)
Lemma entry_exit (s : State) (c c' : DMContext) (es : list Effect) :
  entry s c = Some (c', es) -> (In processExit es <-> s = Done).
Proof.
  intros H. rewrite exit_in_filter.
  destruct s; cbn -[printHistory append lookupPhrase numbered] in H;
    try (destruct (lookupPhrase _ _); [|discriminate H]);
    injection H as <- <-;
    cbn -[printHistory append numbered];
    rewrite ?filter_printHistory by (intro; reflexivity);
    try (split; [contradiction | discriminate]).
  - replace (filter isExit (numbered _ _)) with (@nil Effect);
      [split; [contradiction | discriminate]|].
    symmetry. unfold numbered.
    induction (combine _ _) as [|ix l IH]; cbn; [reflexivity|exact IH].
  - split; [reflexivity | intros _; now left].
Qed.

(** No action of a transition exits. *)
Lemma actions_no_exit (s : State) (ev : Event) (t : Transition)
      (c : DMContext) :
  In t (on s ev ++ always s) -> ~ In processExit (snd (actions t c)).
Proof.
  intros Hin. rewrite exit_in_filter.
  destruct s; destruct ev as [[]|[raw|k]|reply|k|[]];
    cbn [on always app In] in Hin;
    repeat (destruct Hin as [<-|Hin]; [cbn -[append]; auto|]);
    try contradiction.
Qed.

(** X11.  [process.exit] is called at two places of main.ts.  In the
    machine it is the entry action of [Done] and no other entry or
    transition action: in a run of actor events from the start the
    effects hold that exit exactly when the run has reached [Done], and
    then once.  The other place is the keypress handler of
    [waitForKeypress], outside the machine and whatever state it is in:
    the handler exits, instead of delivering a token, exactly when the
    key is Ctrl with the name [c]. *)
Theorem process_exit_sites
        (evs : list Event) (s' : State) (c' : DMContext)
        (es : list Effect) (key : Key) :
  run (SetVoice, initialContext) evs = Some ((s', c'), es) ->
  ((s' = Done /\ filter isExit es = [processExit])
   \/ (s' <> Done /\ filter isExit es = [] /\ ~ In processExit es))
  /\ (forall s c c1 es1,
         entry s c = Some (c1, es1) -> (In processExit es1 <-> s = Done))
  /\ (forall s ev t c,
         In t (on s ev ++ always s) -> ~ In processExit (snd (actions t c)))
  /\ (waitForKeypress key = exited
      <-> ctrl key = true /\ name key = Some "c").
Proof.
  intros H. split; [|split; [|split]].
  - destruct (run_exit _ _ _ _ _ _ H) as [[-> E]|[Hs E]];
      [discriminate | now left | right].
    split; [exact Hs|]. split; [exact E|].
    rewrite exit_in_filter, E. auto.
  - exact entry_exit.
  - exact actions_no_exit.
  - unfold waitForKeypress. destruct key as [[keyName|] isCtrl]; cbn.
    + destruct isCtrl; cbn.
      * destruct (String.eqb_spec keyName "c") as [->|Hne].
        -- now split.
        -- split; [discriminate | intros [_ [= E]]; now elim Hne].
      * split; [discriminate | intros [E _]; discriminate E].
    + split; [discriminate | intros [_ E]; discriminate E].
Qed.

Lemma process_exit_sites_witness :
  exists c' es,
    run (SetVoice, initialContext)
        (boot ++ [doneRace (keypress "0"); doneVoid fhSpeak; doneKey "y"])
    = Some ((Done, c'), es)
    /\ filter isExit es = [processExit]
    /\ waitForKeypress {| name := Some "c"; ctrl := true |} = exited.
Proof.
  do 2 eexists. split; [reflexivity|].
  destruct (process_exit_sites
              (boot ++ [doneRace (keypress "0"); doneVoid fhSpeak;
                        doneKey "y"]) Done _ _
              {| name := Some "c"; ctrl := true |} eq_refl)
    as [[[_ E]|[Hs _]] [_ [_ Hkey]]]; [|now elim Hs].
  split; [exact E|]. apply Hkey. now split.
Defined.

(** X12.  An event that a state handles comes from the actor of that
    state, which has thereby settled.  The step it causes starts
    exactly one actor, that of the state the machine comes to rest in,
    or none; it starts none in three cases only.  The machine has
    entered [Done] and exited the process.  Or the confirmation got a
    key other than [y] and [n] and the machine rests in [ProcessYN],
    which has no actor.  Or the listening race was rejected: the
    transition back to [ListeningOrWaitingForKey] does not re-enter the
    state, so the machine rests there with an unchanged context and the
    race is not started again. *)
Theorem handled_event_starts_actor_or_rests
        (s s' : State) (c c' : DMContext) (ev : Event) (es : list Effect) :
  send (s, c) ev = Some ((s', c'), es) ->
  handled (s, c) ev = true ->
  invokes s = Some (sourceOf ev)
  /\ ((exists src input,
          actorCalls es = [invokeActor src input] /\ invokes s' = Some src)
      \/ (actorCalls es = []
          /\ ((s' = Done /\ In processExit es)
              \/ (s = LastQuestionWaitForYN /\ s' = ProcessYN
                  /\ isYesKey c' = false /\ isNoKey c' = false)
              \/ (s = ListeningOrWaitingForKey
                  /\ s' = ListeningOrWaitingForKey
                  /\ ev = errorOf listenOrKeypress /\ c' = c)))).
Proof.
  intros H Hh.
  destruct s; destruct ev as [[]|[raw|k]|reply|k|[]];
    try discriminate Hh; (split; [reflexivity|]); step_on H c;
    try discriminate H; apply outcome_inj in H as [<- [<- <-]];
    unfold actorCalls;
    rewrite ?filter_app, ?filter_commitLog, ?filter_printHistory
      by (intro; reflexivity);
    cbn -[Js.lastElement append printHistory];
    first [ left; do 2 eexists; split; reflexivity
          | right; split; [reflexivity|]; left; split; [reflexivity|];
            cbn -[printHistory];
            first [ apply in_or_app; right; right; now left
                  | tauto ]
          | right; split; [reflexivity|]; right; right;
            repeat split; reflexivity
          | right; split; [reflexivity|]; right; left;
            repeat split; apply String.eqb_neq; assumption ].
Qed.

Lemma handled_event_starts_actor_or_rests_witness :
  exists es,
    send (ListeningOrWaitingForKey, initialContext)
         (errorOf listenOrKeypress)
    = Some ((ListeningOrWaitingForKey, initialContext), es)
    /\ handled (ListeningOrWaitingForKey, initialContext)
               (errorOf listenOrKeypress) = true
    /\ actorCalls es = [].
Proof.
  eexists. split; [reflexivity|]. split; [reflexivity|].
  destruct (handled_event_starts_actor_or_rests
              ListeningOrWaitingForKey ListeningOrWaitingForKey
              initialContext initialContext (errorOf listenOrKeypress)
              _ eq_refl eq_refl)
    as [_ [[src [input [H _]]]|[H _]]]; [discriminate H | exact H].
Defined.

(** ** Invariants of the reachable configurations *)

Ltac micro_cases Hstep :=
  let Hsel := fresh "Hsel" in
  let Htake := fresh "Htake" in
  inversion Hstep as [s0 c0 ev t cfg0 es0 _ Hsel Htake
                     | s0 c0 t cfg0 es0 Hsel Htake]; subst;
  [ match type of Hsel with
    | select (on ?s ?ev) _ = _ =>
        destruct s; destruct ev as [[]|[?|?]|?|?|[]];
        cbn [select on guard unguarded] in Hsel; try discriminate Hsel
    end
  | match type of Hsel with
    | select (always ?s) _ = _ =>
        destruct s; cbn [select always guard unguarded] in Hsel;
        repeat match type of Hsel with
               | (if ?g then _ else _) = _ => destruct g eqn:?
               end;
        try discriminate Hsel
    end ];
  injection Hsel as <-;
  unfold take, enter in Htake;
  repeat (cbn -[Js.lastElement lookupPhrase Js.join append sanitizeUtterance]
            in Htake;
          try match type of Htake with
              | context [match Js.lastElement ?m with _ => _ end] =>
                  destruct (Js.lastElement m) eqn:?
              | context [match lookupPhrase ?a ?b with _ => _ end] =>
                  destruct (lookupPhrase a b) eqn:?
              end);
  try discriminate Htake;
  apply outcome_inj in Htake as [<- [<- _]].

Lemma microstep_buffer (s s' : State) (c c' : DMContext) :
  microstep (s, c) (s', c') ->
  inRace s = true \/ userSpeechBuffer c = [] ->
  inRace s' = true \/ userSpeechBuffer c' = [].
Proof.
  intros Hstep Hinv. micro_cases Hstep.
  all: try (left; reflexivity).
  all: try (right; reflexivity).
  all: try (destruct Hinv as [Hinv|Hinv]; [discriminate Hinv|]; right; exact Hinv).
  right. match goal with
         | E : hasAccumulatedSpeech _ = false |- _ =>
             unfold hasAccumulatedSpeech in E;
             destruct (userSpeechBuffer c); [reflexivity|discriminate E]
         end.
Qed.

Lemma lookupPhrase_In (table : list (string * string)) (k phrase : string) :
  lookupPhrase table k = Some phrase -> In phrase (map snd table).
Proof.
  induction table as [|[k' v] table IH]; cbn; [discriminate|].
  destruct (String.eqb k k'); [intros [= ->]; now left | right; auto].
Qed.

Lemma microstep_state (s s' : State) (c c' : DMContext) :
  microstep (s, c) (s', c') ->
  (s = AddManipulation -> hasPendingPhrase c) ->
  s' <> SessionExitingQuestionForTheResearcher
  /\ (s' = AddManipulation \/ s' = SpeakManipulation -> hasPendingPhrase c').
Proof.
  intros Hstep Hinv. micro_cases Hstep.
  all: split; [discriminate|]; intros [Hx|Hx]; try discriminate Hx.
  - match goal with
    | E : lookupPhrase _ _ = Some ?p |- _ =>
        exists p; split; [exact (lookupPhrase_In _ _ _ E)|]
    end.
    split; [reflexivity|].
    cbn [messages setPendingManipulation appendMessage setMessages].
    apply lastElement_snoc.
  - now apply Hinv.
Qed.

Lemma microstep_markerFree (s s' : State) (c c' : DMContext) :
  microstep (s, c) (s', c') -> markerFree c -> markerFree c'.
Proof.
  intros Hstep [Hb Hm]. micro_cases Hstep.
  all: try (split; assumption).
  all: unfold markerFree;
    cbn [messages userSpeechBuffer setPendingManipulation appendMessage
         setMessages setUserSpeechBuffer setKeyPressed setLastResult
         setIsFirstMessage].
  all: try (split; [exact Hb|]; apply Forall_app; split; [exact Hm|];
            repeat constructor; discriminate).
  - split; [|exact Hm]. rewrite forallb_app, Hb. cbn.
    now rewrite sanitize_noMarker.
  - split; [reflexivity|]. apply Forall_app. split; [exact Hm|].
    constructor; [|constructor]. intros _. cbn [content].
    now apply join_noMarker.
Qed.

Lemma reachable_invariants (cfg : Config) :
  reachable cfg ->
  fst cfg <> SessionExitingQuestionForTheResearcher
  /\ (fst cfg = AddManipulation \/ fst cfg = SpeakManipulation ->
      hasPendingPhrase (snd cfg))
  /\ (inRace (fst cfg) = true \/ userSpeechBuffer (snd cfg) = [])
  /\ markerFree (snd cfg).
Proof.
  induction 1 as [|[s c] [s' c'] _ [_ [Hp [Hb Hm]]] Hstep]; cbn [fst snd] in *.
  - split; [discriminate|]. split; [intros [H|H]; discriminate H|].
    split; [now right|]. split; [reflexivity|].
    repeat constructor; discriminate.
  - destruct (microstep_state _ _ _ _ Hstep (fun E => Hp (or_introl E)))
      as [H1 H2].
    split; [exact H1|]. split; [exact H2|].
    split; [exact (microstep_buffer _ _ _ _ Hstep Hb)|].
    exact (microstep_markerFree _ _ _ _ Hstep Hm).
Qed.

(** X13.  No reachable configuration is in the state
    [SessionExitingQuestionForTheResearcher]: nothing targets it.  And
    whenever the machine is in [SpeakManipulation] the pending phrase is
    a phrase of the table and the last turn of the history, so the text
    handed to the speech actor is that phrase and never the empty
    string that the input falls back to. *)
Theorem unreachable_configurations (s : State) (c : DMContext) :
  reachable (s, c) ->
  s <> SessionExitingQuestionForTheResearcher
  /\ (s = SpeakManipulation ->
      exists phrase,
        In phrase (map snd manipulations)
        /\ invokeInput s c = Some (speakInput phrase false)
        /\ Js.lastElement (messages c)
           = Some {| role := assistant; content := phrase |}
        /\ phrase <> "").
Proof.
  intros Hr. destruct (reachable_invariants _ Hr) as [Hd [Hp _]].
  split; [exact Hd|]. intros ->.
  destruct (Hp (or_intror eq_refl)) as [phrase [Hin [Hpend Hlast]]].
  exists phrase. split; [exact Hin|]. cbn [invokeInput snd] in *.
  rewrite Hpend. split; [reflexivity|]. split; [exact Hlast|].
  intros ->. cbn in Hin.
  repeat (destruct Hin as [Hin|Hin]; [discriminate Hin|]). exact Hin.
Qed.

Lemma unreachable_configurations_witness :
  exists c es,
    run (SetVoice, initialContext) (boot ++ [doneRace (keypress "d")])
    = Some ((SpeakManipulation, c), es)
    /\ reachable (SpeakManipulation, c)
    /\ SpeakManipulation <> SessionExitingQuestionForTheResearcher.
Proof.
  do 2 eexists. split; [reflexivity|].
  assert (Hr : reachable
                 (SpeakManipulation,
                  setPendingManipulation (Some "Hahaha, the child?")
                    (appendMessage
                       {| role := assistant;
                          content := "Hahaha, the child?" |}
                       (setKeyPressed (Some "d")
                          (setIsFirstMessage false initialContext))))).
  { exact (proj1 (run_reachable (boot ++ [doneRace (keypress "d")])
                    (SetVoice, initialContext) _ _
                    reach_initial eq_refl eq_refl)). }
  split; [exact Hr|].
  exact (proj1 (unreachable_configurations _ _ Hr)).
Defined.

(** X14.  Outside the listening race the buffer is empty: in every
    reachable configuration whose state is not one of
    [ListeningOrWaitingForKey], [CheckIfKeypressOrContinueListening]
    and [ProcessAccumulatedSpeech], no fragment is left, so speech is
    never carried past the keypress that follows it. *)
Theorem buffer_empty_outside_race (s : State) (c : DMContext) :
  reachable (s, c) ->
  inRace s = false ->
  userSpeechBuffer c = [].
Proof.
  intros Hr Hs. destruct (reachable_invariants _ Hr) as [_ [_ [[H|H] _]]].
  - cbn [fst] in H. congruence.
  - exact H.
Qed.

Lemma buffer_empty_outside_race_witness :
  exists c es,
    run (SetVoice, initialContext)
        (boot ++ heard ["the pilot"; "NOMATCH"] ++ [doneRace (keypress "l")])
    = Some ((ProcessingResponse, c), es)
    /\ reachable (ProcessingResponse, c)
    /\ inRace ProcessingResponse = false
    /\ userSpeechBuffer c = [].
Proof.
  do 2 eexists. split; [reflexivity|].
  match goal with
  | |- reachable ?cfg /\ _ =>
      assert (Hr : reachable cfg)
        by exact (proj1 (run_reachable
                           (boot ++ heard ["the pilot"; "NOMATCH"]
                                 ++ [doneRace (keypress "l")])
                           (SetVoice, initialContext) _ _
                           reach_initial eq_refl eq_refl))
  end.
  split; [exact Hr|]. split; [reflexivity|].
  exact (buffer_empty_outside_race _ _ Hr eq_refl).
Defined.

(** X15.  The marker never reaches the history: in every reachable
    configuration no fragment of the buffer and no user turn of the
    history contains a case variant of [nomatch], whatever was heard. *)
Theorem history_never_carries_marker (s : State) (c : DMContext) :
  reachable (s, c) ->
  (forall fragment, In fragment (userSpeechBuffer c) ->
                    ~ containsNoMatchMarker fragment)
  /\ (forall m, In m (messages c) -> role m = user ->
                ~ containsNoMatchMarker (content m)).
Proof.
  intros Hr. destruct (reachable_invariants _ Hr) as [_ [_ [_ [Hb Hm]]]].
  cbn [snd] in *. split.
  - intros u Hu Hmark. rewrite forallb_forall in Hb. specialize (Hb u Hu).
    apply marker_test in Hmark. unfold noMarker in Hb.
    rewrite Hmark in Hb. discriminate.
  - intros m Hin Hrole Hmark. rewrite Forall_forall in Hm.
    specialize (Hm m Hin Hrole). apply marker_test in Hmark.
    unfold noMarker in Hm. rewrite Hmark in Hm. discriminate.
Qed.

Lemma history_never_carries_marker_witness :
  exists c es,
    run (SetVoice, initialContext)
        (boot ++ heard ["no"; "match NoMaTcH"] ++ [doneRace (keypress "m")])
    = Some ((ListeningOrWaitingForKey, c), es)
    /\ reachable (ListeningOrWaitingForKey, c)
    /\ In {| role := user; content := "no ..." |} (messages c)
    /\ ~ containsNoMatchMarker "no ...".
Proof.
  do 2 eexists. split; [reflexivity|].
  match goal with
  | |- reachable ?cfg /\ _ =>
      assert (Hr : reachable cfg)
        by exact (proj1 (run_reachable
                           (boot ++ heard ["no"; "match NoMaTcH"]
                                 ++ [doneRace (keypress "m")])
                           (SetVoice, initialContext) _ _
                           reach_initial eq_refl eq_refl))
  end.
  split; [exact Hr|].
  assert (Hin : In {| role := user; content := "no ..." |}
                   (initialMessages
                    ++ [ {| role := user; content := "no ..." |} ]))
    by (apply in_or_app; right; now left).
  split; [exact Hin|].
  exact (proj2 (history_never_carries_marker _ _ Hr) _ Hin eq_refl).
Defined.

(** X16.  Sanitizing twice is sanitizing once, a sanitized utterance
    carries no marker, and joining sanitized utterances with spaces
    cannot create one: the text committed for any sequence of heard
    utterances contains no case variant of [nomatch]. *)
Theorem joined_fragments_carry_no_marker (utterances : list string)
        (u : string) :
  sanitizeUtterance (sanitizeUtterance u) = sanitizeUtterance u
  /\ ~ containsNoMatchMarker (sanitizeUtterance u)
  /\ ~ containsNoMatchMarker
       (Js.join " " (map sanitizeUtterance utterances)).
Proof.
  assert (Hno : forall x, noMarker x = true -> ~ containsNoMatchMarker x).
  { intros x Hx Hmark. apply marker_test in Hmark. unfold noMarker in Hx.
    rewrite Hmark in Hx. discriminate. }
  split; [|split].
  - pose proof (sanitize_noMarker u) as H. unfold noMarker in H.
    apply negb_true_iff in H. unfold sanitizeUtterance at 1. now rewrite H.
  - apply Hno, sanitize_noMarker.
  - apply Hno, join_noMarker. apply forallb_forall.
    intros x Hx. apply in_map_iff in Hx as [v [<- _]].
    apply sanitize_noMarker.
Qed.

(** X17.  Once the farewell is delivered, the answer [y] prints the
    whole history, the farewell included as its last numbered line,
    and then ends the session: the machine is in [Done], the process
    has exited, and nothing was appended after the farewell. *)
Theorem confirmation_yes_prints_whole_history (c : DMContext) :
  exists c' es before after,
    run (End, c) [doneVoid fhSpeak; doneKey "y"] = Some ((Done, c'), es)
    /\ messages c'
       = messages c ++ [ {| role := assistant; content := farewell |} ]
    /\ es = before ++ printHistory (messages c') ++ after
    /\ ~ printsTranscript before
    /\ after = [consoleLog "Session ended. Exiting..."; processExit]
    /\ nth_error (printHistory (messages c'))
                 (S (List.length (messages c)))
       = Some (consoleLog
                 (Js.numberToString (S (List.length (messages c)))
                    ++ ". [assistant]: " ++ farewell)%string)
    /\ actorCalls es = [invokeActor waitForKey noInput].
Proof.
  cbn [run]. rewrite send_farewell_done, send_confirm_yes.
  do 4 eexists. split; [reflexivity|]. split; [reflexivity|].
  split; [rewrite <- app_assoc; reflexivity|].
  split.
  { unfold printsTranscript. cbn. intros H.
    repeat (destruct H as [H|H]; [discriminate H|]). exact H. }
  split; [reflexivity|]. split.
  - cbn [messages setKeyPressed appendMessage setMessages].
    unfold printHistory, numbered. cbn [app nth_error].
    rewrite nth_error_app1.
    + rewrite (numbered_from renderMessage _ 1 (List.length (messages c))
                 {| role := assistant; content := farewell |}).
      * reflexivity.
      * rewrite nth_error_app2 by lia. now rewrite Nat.sub_diag.
    + rewrite length_map, length_combine, length_seq, Nat.min_id, length_app.
      cbn. lia.
  - rewrite app_nil_r, !actorCalls_app. unfold actorCalls at 2.
    rewrite filter_printHistory by (intro; reflexivity). reflexivity.
Qed.
